(** * Crazy Eights: the game-rules engine of [App.tsx]

    A shallow embedding of the rule logic embedded in the React component
    [App] (initGame, checkWin, handleDraw, playCard, handleSuitSelect and
    the AI-turn effect) together with the data model of [types.ts].

    Conventions.
    - A JS array is a [list] in index order: index 0 is the head, [pop]
      removes the last element, [unshift] conses at the head.
    - [setGameState (prev => ...)] is modelled as a function from the
      previous state to the next one; a handler that returns before calling
      [setGameState] leaves the state as it is.
    - The handlers read [gameState] for their guard and [prev] in the
      updater; both denote the current state. *)

From Stdlib Require Import String Bool Arith Lia List Permutation.
Import ListNotations.

Local Infix "+++" := String.append (right associativity, at level 60).

(** ** Data model ([types.ts]) *)

Inductive Suit : Set := HEARTS | DIAMONDS | CLUBS | SPADES.

Inductive Rank : Set :=
  ACE | TWO | THREE | FOUR | FIVE | SIX | SEVEN | EIGHT | NINE | TEN
| JACK | QUEEN | KING.

(** The string values of the enums; [===] on suits and ranks compares them. *)
Definition suitValue (s : Suit) : string :=
  match s with
  | HEARTS => "hearts" | DIAMONDS => "diamonds"
  | CLUBS => "clubs" | SPADES => "spades"
  end.

Definition rankValue (r : Rank) : string :=
  match r with
  | ACE => "A" | TWO => "2" | THREE => "3" | FOUR => "4" | FIVE => "5"
  | SIX => "6" | SEVEN => "7" | EIGHT => "8" | NINE => "9" | TEN => "10"
  | JACK => "J" | QUEEN => "Q" | KING => "K"
  end.

Definition Suit_eqb (a b : Suit) : bool := String.eqb (suitValue a) (suitValue b).
Definition Rank_eqb (a b : Rank) : bool := String.eqb (rankValue a) (rankValue b).

Record Card : Set := mkCard {
  id : string;
  suit : Suit;
  rank : Rank;
  isFaceUp : bool
}.

Inductive GameStatus : Set := playing | paused | won | lost | suit_selection.

Inductive Turn : Set := player | ai.

Definition GameStatus_eqb (a b : GameStatus) : bool :=
  match a, b with
  | playing, playing | paused, paused | won, won | lost, lost
  | suit_selection, suit_selection => true
  | _, _ => false
  end.

Definition Turn_eqb (a b : Turn) : bool :=
  match a, b with
  | player, player | ai, ai => true
  | _, _ => false
  end.

Record GameState : Set := mkState {
  deck : list Card;
  playerHand : list Card;
  aiHand : list Card;
  discardPile : list Card;
  currentTurn : Turn;
  status : GameStatus;
  wildSuit : option Suit;
  lastAction : string;
  hint : option string
}.

(** [{ ...c, isFaceUp: b }] *)
Definition withFaceUp (b : bool) (c : Card) : Card :=
  mkCard (id c) (suit c) (rank c) b.

(** ** The legality rule *)

(** Modelled from the spec: [isPlayable] is imported from [./utils], which
    is not among the sources.  The spec (4.2) gives it as: a card is
    playable iff (a) its rank is EIGHT, or (b) wildSuit is non-null and
    card.suit equals wildSuit, or (c) wildSuit is null and card.suit equals
    topCard.suit or card.rank equals topCard.rank; rule (a) dominates. *)
Definition isPlayable (card topCard : Card) (wildSuit : option Suit) : bool :=
  if Rank_eqb (rank card) EIGHT then true
  else match wildSuit with
       | Some w => Suit_eqb (suit card) w
       | None => Suit_eqb (suit card) (suit topCard)
                 || Rank_eqb (rank card) (rank topCard)
       end.

(** ** The engine ([App.tsx]) *)

(** [gameState.discardPile[gameState.discardPile.length - 1]]: [undefined]
    ([None]) on an empty pile. *)
Definition topCard (gameState : GameState) : option Card :=
  nth_error (discardPile gameState) (length (discardPile gameState) - 1).

Definition checkWin (state : GameState) : option GameStatus :=
  if length (playerHand state) =? 0 then Some won
  else if length (aiHand state) =? 0 then Some lost
  else None.

(** [const winStatus = checkWin(newState); if (winStatus) newState.status = winStatus;] *)
Definition applyWinStatus (newState : GameState) : GameState :=
  match checkWin newState with
  | Some winStatus =>
      mkState (deck newState) (playerHand newState) (aiHand newState)
              (discardPile newState) (currentTurn newState) winStatus
              (wildSuit newState) (lastAction newState) (hint newState)
  | None => newState
  end.

(** [Array.prototype.pop]: the last element and the array without it;
    [None] stands for [undefined] on an empty array. *)
Definition pop (l : list Card) : option (Card * list Card) :=
  match rev l with
  | [] => None
  | c :: r => Some (c, rev r)
  end.

(** [handleDraw]: [pop] has no card exactly when [prev.deck.length === 0]
    (see [pop_nil_iff]); the drawn card is turned face up. *)
Definition handleDraw (gameState : GameState) : GameState :=
  if negb (GameStatus_eqb (status gameState) playing)
     || negb (Turn_eqb (currentTurn gameState) player)
  then gameState
  else
    let prev := gameState in
    match pop (deck prev) with
    | None =>
        (* prev.deck.length === 0 *)
        mkState (deck prev) (playerHand prev) (aiHand prev) (discardPile prev)
                ai (status prev) (wildSuit prev)
                "Deck empty! Turn skipped." (hint prev)
    | Some (drawnCard, newDeck) =>
        mkState newDeck (playerHand prev ++ [withFaceUp true drawnCard])
                (aiHand prev) (discardPile prev)
                ai (status prev) (wildSuit prev)
                "You drew a card." (hint prev)
    end.

(** [playCard]: the guard, the lookup by id and the legality test read
    [gameState]; [None] is returned only where [isPlayable] would be called
    with an [undefined] top card (empty discard pile), about which the
    model of [isPlayable] says nothing. *)
Definition playCard (gameState : GameState) (cardId : string) : option GameState :=
  if negb (GameStatus_eqb (status gameState) playing)
     || negb (Turn_eqb (currentTurn gameState) player)
  then Some gameState
  else
    match find (fun c => String.eqb (id c) cardId) (playerHand gameState) with
    | None => Some gameState
    | Some card =>
        match topCard gameState with
        | None => None
        | Some top =>
            if negb (isPlayable card top (wildSuit gameState)) then Some gameState
            else
              let prev := gameState in
              if Rank_eqb (rank card) EIGHT then
                Some (mkState (deck prev)
                        (filter (fun c => negb (String.eqb (id c) cardId)) (playerHand prev))
                        (aiHand prev)
                        (discardPile prev ++ [withFaceUp true card])
                        (currentTurn prev) suit_selection (wildSuit prev)
                        (lastAction prev) (hint prev))
              else
                let newHand :=
                  filter (fun c => negb (String.eqb (id c) cardId)) (playerHand prev) in
                let newState :=
                  mkState (deck prev) newHand (aiHand prev)
                          (discardPile prev ++ [withFaceUp true card])
                          ai (status prev) None
                          ("You played " +++ rankValue (rank card) +++ " of "
                             +++ suitValue (suit card) +++ ".")
                          (hint prev) in
                Some (applyWinStatus newState)
        end
    end.

(** [handleSuitSelect] has no guard of its own. *)
Definition handleSuitSelect (gameState : GameState) (suit : Suit) : GameState :=
  let prev := gameState in
  let newState :=
    mkState (deck prev) (playerHand prev) (aiHand prev) (discardPile prev)
            ai playing (Some suit)
            ("You set the suit to " +++ suitValue suit +++ ".")
            (hint prev) in
  applyWinStatus newState.

(** *** The AI turn *)

(** [suitCounts] is a JS object used as a map from suit strings to counts.
    [Object.entries] lists its (non-numeric) string keys in insertion
    order, so it is kept as an association list in insertion order:
    [suitCounts[k] = (suitCounts[k] || 0) + 1] increments in place when the
    key is there and appends the key otherwise. *)
Fixpoint bump (k : Suit) (suitCounts : list (Suit * nat)) : list (Suit * nat) :=
  match suitCounts with
  | [] => [(k, 0 + 1)]
  | (k', n) :: rest =>
      if Suit_eqb k' k then (k', n + 1) :: rest else (k', n) :: bump k rest
  end.

(** [newHand.forEach(c => { suitCounts[c.suit] = (suitCounts[c.suit] || 0) + 1 })] *)
Definition countSuits (newHand : list Card) : list (Suit * nat) :=
  fold_left (fun suitCounts c => bump (suit c) suitCounts) newHand [].

(** [.sort((a, b) => b[1] - a[1])]: [Array.prototype.sort] is stable, so
    this is the stable sort by descending count, here by insertion: an
    entry goes in front of the entries that followed it unless one of them
    has a strictly larger count. *)
Fixpoint insertDesc (a : Suit * nat) (sorted : list (Suit * nat)) : list (Suit * nat) :=
  match sorted with
  | [] => [a]
  | b :: rest => if snd a <? snd b then b :: insertDesc a rest else a :: b :: rest
  end.

Definition sortDesc (entries : list (Suit * nat)) : list (Suit * nat) :=
  fold_right insertDesc [] entries.

(** [(Object.entries(suitCounts).sort(...)[0]?.[0] as Suit) || Suit.SPADES] *)
Definition bestSuit (newHand : list Card) : Suit :=
  match sortDesc (countSuits newHand) with
  | [] => SPADES
  | (k, _) :: _ => k
  end.

(** [prev.aiHand.filter(c => isPlayable(c, top, prev.wildSuit))]: on an
    empty hand the callback is never called; on a non-empty hand with an
    [undefined] top card the model of [isPlayable] gives no result. *)
Definition playableCardsOf (top : option Card) (wild : option Suit)
    (hand : list Card) : option (list Card) :=
  match hand, top with
  | [], _ => Some []
  | _ :: _, Some t => Some (filter (fun c => isPlayable c t wild) hand)
  | _ :: _, None => None
  end.

(** [nonEight || playableCards[0]], for a non-empty [playableCards]. *)
Definition chooseCard (playableCards : list Card) : option Card :=
  match playableCards with
  | [] => None
  | first :: _ =>
      match find (fun c => negb (Rank_eqb (rank c) EIGHT)) playableCards with
      | Some nonEight => Some nonEight
      | None => Some first
      end
  end.

(** The card the AI plays in [prev], if it plays one. *)
Definition cardToPlayOf (prev : GameState) : option Card :=
  match playableCardsOf (topCard prev) (wildSuit prev) (aiHand prev) with
  | Some playableCards => chooseCard playableCards
  | None => None
  end.

(** The body of the AI effect: it runs only when the status is playing and
    it is the AI's turn (the timer is cleared when either changes). *)
Definition aiTurn (gameState : GameState) : option GameState :=
  if GameStatus_eqb (status gameState) playing
     && Turn_eqb (currentTurn gameState) ai
  then
    let prev := gameState in
    match playableCardsOf (topCard prev) (wildSuit prev) (aiHand prev) with
    | None => None
    | Some playableCards =>
        match chooseCard playableCards with
        | Some cardToPlay =>
            let newHand :=
              filter (fun c => negb (String.eqb (id c) (id cardToPlay))) (aiHand prev) in
            let '(newWildSuit, actionText) :=
              if Rank_eqb (rank cardToPlay) EIGHT then
                (Some (bestSuit newHand),
                 "AI played an 8 and set suit to "
                   +++ suitValue (bestSuit newHand) +++ ".")
              else
                (None,
                 "AI played " +++ rankValue (rank cardToPlay) +++ " of "
                   +++ suitValue (suit cardToPlay) +++ ".") in
            let newState :=
              mkState (deck prev) (playerHand prev) newHand
                      (discardPile prev ++ [withFaceUp true cardToPlay])
                      player (status prev) newWildSuit actionText (hint prev) in
            Some (applyWinStatus newState)
        | None =>
            (* playableCards.length === 0: draw *)
            match pop (deck prev) with
            | Some (drawn, newDeck) =>
                Some (mkState newDeck (playerHand prev)
                        (aiHand prev ++ [withFaceUp false drawn])
                        (discardPile prev) player (status prev) (wildSuit prev)
                        "AI drew a card." (hint prev))
            | None =>
                Some (mkState (deck prev) (playerHand prev) (aiHand prev)
                        (discardPile prev) player (status prev) (wildSuit prev)
                        "AI deck empty! Turn skipped." (hint prev))
            end
        end
    end
  else Some gameState.

(** *** Starting a game *)

Definition SUITS : list Suit := [HEARTS; DIAMONDS; CLUBS; SPADES].

Definition RANKS : list Rank :=
  [ACE; TWO; THREE; FOUR; FIVE; SIX; SEVEN; EIGHT; NINE; TEN; JACK; QUEEN; KING].

(** The 52 (suit, rank) pairs. *)
Definition allPairs : list (Suit * Rank) :=
  flat_map (fun s => map (fun r => (s, r)) RANKS) SUITS.

Definition cardPair (c : Card) : Suit * Rank := (suit c, rank c).

(** Modelled from the spec: [createDeck] is imported from [./utils], which
    is not among the sources, and draws on a random source.  The spec (4.1)
    gives its contract: it produces exactly one Card for each of the 52
    (suit, rank) pairs, each with a freshly generated unique id and
    face-up = false, and returns them in a randomized order.  A list is a
    possible result of [createDeck] when it meets this contract. *)
Definition ShuffledDeck (d : list Card) : Prop :=
  Permutation (map cardPair d) allPairs
  /\ NoDup (map id d)
  /\ Forall (fun c => isFaceUp c = false) d.

(** The seed-card loop
    [while (firstDiscard.rank === Rank.EIGHT) { fullDeck.unshift(firstDiscard); firstDiscard = fullDeck.pop()!; }]
    with a bound on the number of iterations; [None] when the bound is
    exhausted. *)
Fixpoint seedLoop (fuel : nat) (fullDeck : list Card) (firstDiscard : Card)
    : option (list Card * Card) :=
  if Rank_eqb (rank firstDiscard) EIGHT then
    match fuel with
    | 0 => None
    | S fuel' =>
        match pop (firstDiscard :: fullDeck) with
        | Some (next, fullDeck') => seedLoop fuel' fullDeck' next
        | None => None
        end
    end
  else Some (fullDeck, firstDiscard).

(** [initGame], as a function of the deck that [createDeck] returned.
    [splice(0, 8)] takes the first eight cards out of the array.  [None]
    when no state is set: the first [pop] finds the deck empty (reading
    [.rank] of [undefined] throws) or the loop does not end.  The bound
    handed to the loop is the number of cards left after the first pop: a
    loop that runs longer has only eights to cycle through and runs
    forever (see [seedLoop_only_eights] and [seedLoop_bound_complete]). *)
Definition initGame (createDeck : list Card) : option GameState :=
  let fullDeck := createDeck in
  let pHand := map (withFaceUp true) (firstn 8 fullDeck) in
  let fullDeck := skipn 8 fullDeck in
  let aHand := map (withFaceUp false) (firstn 8 fullDeck) in
  let fullDeck := skipn 8 fullDeck in
  match pop fullDeck with
  | None => None
  | Some (firstDiscard, fullDeck) =>
      match seedLoop (length fullDeck) fullDeck firstDiscard with
      | None => None
      | Some (fullDeck, firstDiscard) =>
          Some (mkState fullDeck pHand aHand [withFaceUp true firstDiscard]
                  player playing None
                  "Game started! Your turn."
                  (Some "Match the suit or rank of the top card."%string))
      end
  end.

(** *** The card-conservation invariant *)

Definition allCards (s : GameState) : list Card :=
  deck s ++ playerHand s ++ aiHand s ++ discardPile s.

(** The four collections together hold each of the 52 (suit, rank) pairs
    exactly once, and no two cards share an id. *)
Definition conserved (s : GameState) : Prop :=
  Permutation (map cardPair (allCards s)) allPairs
  /\ NoDup (map id (allCards s)).

(** *** The suit choice as the specification words it *)

(** The number of cards of suit [s] in a hand. *)
Definition countSuit (s : Suit) (hand : list Card) : nat :=
  length (filter (fun c => Suit_eqb (suit c) s) hand).

(** The specification's wording of the AI's suit choice, kept apart from
    [bestSuit]: the most frequent suit of the hand, the first in the
    enumeration order HEARTS, DIAMONDS, CLUBS, SPADES among equally
    frequent ones, and SPADES for an empty hand. *)
Definition enumOrderBestSuit (hand : list Card) : Suit :=
  match hand with
  | [] => SPADES
  | _ :: _ =>
      fold_left
        (fun best s => if countSuit best hand <? countSuit s hand then s else best)
        [DIAMONDS; CLUBS; SPADES] HEARTS
  end.

(** ** Auxiliary definitions for the proofs *)

Definition isEight (c : Card) : bool := Rank_eqb (rank c) EIGHT.

(** A card without its face-up flag. *)
Definition erase (c : Card) : string * (Suit * Rank) := (id c, cardPair c).

Definition pair_eqb (p q : Suit * Rank) : bool :=
  Suit_eqb (fst p) (fst q) && Rank_eqb (snd p) (snd q).

Fixpoint nodupb {A : Type} (eqb : A -> A -> bool) (l : list A) : bool :=
  match l with
  | [] => true
  | x :: r => negb (existsb (eqb x) r) && nodupb eqb r
  end.

(** A decision procedure for the contract [ShuffledDeck]. *)
Definition ShuffledDeckb (d : list Card) : bool :=
  (length d =? 52)
  && forallb (fun p => existsb (pair_eqb p) (map cardPair d)) allPairs
  && nodupb String.eqb (map id d)
  && forallb (fun c => negb (isFaceUp c)) d.

(** One engine operation: a draw or a play by the player, a suit choice,
    or the AI's turn.  [playCard] and [aiTurn] have no result on an empty
    discard pile when they need the top card. *)
Inductive step (s : GameState) : GameState -> Prop :=
| step_draw : step s (handleDraw s)
| step_play (cardId : string) (s' : GameState) :
    playCard s cardId = Some s' -> step s s'
| step_select (suit : Suit) : step s (handleSuitSelect s suit)
| step_ai (s' : GameState) : aiTurn s = Some s' -> step s s'.

(** [suitCounts[k] || 0] *)
Definition getCount (k : Suit) (suitCounts : list (Suit * nat)) : nat :=
  match find (fun e => Suit_eqb (fst e) k) suitCounts with
  | Some e => snd e
  | None => 0
  end.


(** ** Sample cards, decks and states *)

Module Sample.

Definition card (r : Rank) (s : Suit) : Card :=
  mkCard (rankValue r +++ "-" +++ suitValue s) s r true.

Definition faceDown (r : Rank) (s : Suit) : Card :=
  mkCard (rankValue r +++ "-" +++ suitValue s) s r false.

(** A deck as [createDeck] may return it: bottom to top, the non-eights
    suit by suit, then the four eights. *)
Definition shuffled : list Card :=
  map (fun p => faceDown (snd p) (fst p))
      (filter (fun p => negb (Rank_eqb (snd p) EIGHT)) allPairs
       ++ filter (fun p => Rank_eqb (snd p) EIGHT) allPairs).

(** The player to move on an empty deck. *)
Definition emptyDeck : GameState :=
  mkState [] [card FIVE HEARTS; card NINE CLUBS] [faceDown TWO SPADES]
          [card KING DIAMONDS] player playing None
          "AI drew a card." None.

(** The player holds an eight and a five; a three of diamonds is on top. *)
Definition holdsEight : GameState :=
  mkState [faceDown ACE CLUBS] [card EIGHT SPADES; card FIVE HEARTS]
          [faceDown TWO SPADES] [card THREE DIAMONDS] player playing None
          "AI drew a card." None.

(** After the player played the eight of spades from [holdsEight]. *)
Definition choosing : GameState :=
  mkState [faceDown ACE CLUBS] [card FIVE HEARTS] [faceDown TWO SPADES]
          [card THREE DIAMONDS; card EIGHT SPADES] player suit_selection None
          "AI drew a card." None.

(** After the player chose hearts in [choosing]: the AI is to move. *)
Definition chosen : GameState :=
  mkState [faceDown ACE CLUBS] [card FIVE HEARTS] [faceDown TWO SPADES]
          [card THREE DIAMONDS; card EIGHT SPADES] ai playing (Some HEARTS)
          "You set the suit to hearts." None.

(** Awaiting the suit while the AI's hand is empty and the player's is not:
    a state of the type that no game reaches. *)
Definition choosingAiOut : GameState :=
  mkState [faceDown ACE CLUBS] [card FIVE HEARTS] []
          [card THREE DIAMONDS; card EIGHT SPADES] player suit_selection None
          "AI drew a card." None.

(** The player's last card matches the top card in rank. *)
Definition lastCard : GameState :=
  mkState [faceDown ACE CLUBS] [card SEVEN HEARTS] [faceDown TWO SPADES]
          [card SEVEN SPADES] player playing None
          "AI drew a card." None.

(** The AI holds 3 of clubs, 3 of diamonds and 8 of spades against a
    five of hearts: only the eight can be played. *)
Definition aiTie : GameState :=
  mkState [faceDown ACE CLUBS] [card SEVEN HEARTS]
          [faceDown THREE CLUBS; faceDown THREE DIAMONDS; faceDown EIGHT SPADES]
          [card FIVE HEARTS] ai playing None
          "You drew a card." None.

(** The AI holds the threes of diamonds, hearts and spades and the 8 of
    clubs against a five of clubs: only the eight can be played, and the
    three suits left are equally frequent. *)
Definition aiTie3 : GameState :=
  mkState [faceDown ACE CLUBS] [card SEVEN HEARTS]
          [faceDown THREE DIAMONDS; faceDown THREE HEARTS;
           faceDown EIGHT CLUBS; faceDown THREE SPADES]
          [card FIVE CLUBS] ai playing None
          "You drew a card." None.

End Sample.

(** ** The hint effect ([App.tsx], "Hint Logic") *)

(** [{ ...prev, hint: h }] *)
Definition withHint (h : string) (prev : GameState) : GameState :=
  mkState (deck prev) (playerHand prev) (aiHand prev) (discardPile prev)
          (currentTurn prev) (status prev) (wildSuit prev) (lastAction prev)
          (Some h).

(** The effect that recomputes the hint.  Outside the status playing it
    sets nothing; like the AI turn it has no result where [isPlayable]
    would be called with an [undefined] top card. *)
Definition hintEffect (gameState : GameState) : option GameState :=
  if GameStatus_eqb (status gameState) playing then
    if Turn_eqb (currentTurn gameState) player then
      match playableCardsOf (topCard gameState) (wildSuit gameState)
                            (playerHand gameState) with
      | None => None
      | Some playableCards =>
          match playableCards with
          | card :: _ =>
              let hintText :=
                if Rank_eqb (rank card) EIGHT
                then "You have a Wild 8! You can play it anytime."%string
                else "You can play the " +++ rankValue (rank card) +++ " of "
                       +++ suitValue (suit card) +++ "." in
              Some (withHint hintText gameState)
          | [] =>
              Some (withHint "No playable cards. Draw from the deck!" gameState)
          end
      end
    else Some (withHint "AI is thinking..." gameState)
  else Some gameState.

(** ** Invariants of a game *)



(** ** Further sample states *)

Module Table.

(** The AI holds a playable five of diamonds in front of a playable eight. *)
Definition aiChoice : GameState :=
  mkState [Sample.faceDown ACE CLUBS] [Sample.card SEVEN HEARTS]
          [Sample.faceDown EIGHT HEARTS; Sample.faceDown TWO CLUBS;
           Sample.faceDown FIVE DIAMONDS; Sample.faceDown NINE DIAMONDS]
          [Sample.card KING DIAMONDS] ai playing (Some DIAMONDS)
          "You drew a card." None.

(** The AI holds nothing it can play on the king of diamonds. *)
Definition aiStuck : GameState :=
  mkState [Sample.faceDown ACE CLUBS; Sample.faceDown FOUR HEARTS]
          [Sample.card SEVEN HEARTS]
          [Sample.faceDown TWO CLUBS; Sample.faceDown NINE SPADES]
          [Sample.card KING DIAMONDS] ai playing None
          "You drew a card." None.

(** The player holds only an eight. *)
Definition lastEight : GameState :=
  mkState [Sample.faceDown ACE CLUBS] [Sample.card EIGHT SPADES]
          [Sample.faceDown TWO SPADES] [Sample.card THREE DIAMONDS]
          player playing None "AI drew a card." None.

(** The player holds nothing that goes on the king of diamonds. *)
Definition stuck : GameState :=
  mkState [Sample.faceDown ACE CLUBS]
          [Sample.card SEVEN HEARTS; Sample.card TWO CLUBS]
          [Sample.faceDown TWO SPADES] [Sample.card KING DIAMONDS]
          player playing None "AI drew a card." None.

End Table.

(** * Properties *)

(** ** Equality tests *)

Lemma Suit_eqb_eq (a b : Suit) : Suit_eqb a b = true <-> a = b.
Proof.
  split.
  - destruct a, b; intros H; try reflexivity; discriminate H.
  - intros ->. destruct b; reflexivity.
Qed.

Lemma Rank_eqb_eq (a b : Rank) : Rank_eqb a b = true <-> a = b.
Proof.
  split.
  - destruct a, b; intros H; try reflexivity; discriminate H.
  - intros ->. destruct b; reflexivity.
Qed.

Lemma Rank_eqb_neq (a b : Rank) : Rank_eqb a b = false <-> a <> b.
Proof.
  rewrite <- Rank_eqb_eq. destruct (Rank_eqb a b); split; congruence.
Qed.

Lemma Suit_eqb_refl (a : Suit) : Suit_eqb a a = true.
Proof. now apply Suit_eqb_eq. Qed.

Lemma Suit_eqb_neq (a b : Suit) : Suit_eqb a b = false <-> a <> b.
Proof.
  rewrite <- Suit_eqb_eq. destruct (Suit_eqb a b); split; congruence.
Qed.

Lemma GameStatus_eqb_eq (a b : GameStatus) : GameStatus_eqb a b = true <-> a = b.
Proof. destruct a, b; simpl; split; congruence. Qed.

Lemma Turn_eqb_eq (a b : Turn) : Turn_eqb a b = true <-> a = b.
Proof. destruct a, b; simpl; split; congruence. Qed.

(** ** Stacks *)

Lemma pop_app_last (l : list Card) (c : Card) : pop (l ++ [c]) = Some (c, l).
Proof. unfold pop. rewrite rev_app_distr. simpl. now rewrite rev_involutive. Qed.

Lemma pop_nil_iff (l : list Card) : pop l = None <-> l = [].
Proof.
  destruct l as [|a l] using rev_ind.
  - split; reflexivity.
  - rewrite pop_app_last. split; [discriminate|].
    intros H. now destruct l.
Qed.

Lemma pop_Some (l l' : list Card) (c : Card) :
  pop l = Some (c, l') -> l = l' ++ [c].
Proof.
  destruct l as [|a l _] using rev_ind.
  - discriminate.
  - rewrite pop_app_last. now intros [= -> ->].
Qed.

(** ** The legality rule *)

(** C1. [isPlayable c t w] is true exactly when [c] is an EIGHT, or a wild
    suit is set and [c] has that suit, or no wild suit is set and [c]
    matches the top card [t] in suit or in rank; every EIGHT is playable
    whatever [t] and [w] are. *)
Theorem isPlayable_spec :
  forall (c t : Card) (w : option Suit),
    (isPlayable c t w = true <->
       rank c = EIGHT
       \/ (exists ws, w = Some ws /\ suit c = ws)
       \/ (w = None /\ (suit c = suit t \/ rank c = rank t)))
    /\ (forall i s f, isPlayable (mkCard i s EIGHT f) t w = true).
Proof.
  intros c t w. split; [|reflexivity].
  unfold isPlayable.
  destruct (Rank_eqb (rank c) EIGHT) eqn:E8.
  - apply Rank_eqb_eq in E8. tauto.
  - apply Rank_eqb_neq in E8. destruct w as [ws|].
    + rewrite Suit_eqb_eq. split.
      * intros H. right; left. now exists ws.
      * intros [H|[(ws' & [= <-] & H)|(H & _)]]; [contradiction|assumption|discriminate].
    + rewrite orb_true_iff, Suit_eqb_eq, Rank_eqb_eq. split.
      * intros H. right; right. now split.
      * intros [H|[(ws' & H & _)|(_ & H)]]; [contradiction|discriminate|assumption].
Qed.

(** ** Win detection *)

(** C7. [checkWin] answers won when the player's hand is empty, also when
    the AI's hand is empty too; lost when only the AI's hand is empty; and
    null otherwise. *)
Theorem checkWin_spec :
  forall state : GameState,
    checkWin state =
      match playerHand state, aiHand state with
      | [], _ => Some won
      | _ :: _, [] => Some lost
      | _ :: _, _ :: _ => None
      end.
Proof.
  intros state. unfold checkWin.
  destruct (playerHand state), (aiHand state); reflexivity.
Qed.

Lemma applyWinStatus_fields (s : GameState) :
  deck (applyWinStatus s) = deck s
  /\ playerHand (applyWinStatus s) = playerHand s
  /\ aiHand (applyWinStatus s) = aiHand s
  /\ discardPile (applyWinStatus s) = discardPile s
  /\ currentTurn (applyWinStatus s) = currentTurn s
  /\ wildSuit (applyWinStatus s) = wildSuit s
  /\ lastAction (applyWinStatus s) = lastAction s.
Proof. unfold applyWinStatus. destruct (checkWin s); simpl; tauto. Qed.

Lemma applyWinStatus_status (s : GameState) :
  status (applyWinStatus s) =
    match playerHand s, aiHand s with
    | [], _ => won
    | _ :: _, [] => lost
    | _ :: _, _ :: _ => status s
    end.
Proof.
  unfold applyWinStatus. rewrite checkWin_spec.
  destruct (playerHand s), (aiHand s); reflexivity.
Qed.

(** ** Drawing *)

(** C8. With the status playing, the player to move and the deck empty,
    [handleDraw] draws nothing: deck, both hands, discard pile, wild suit
    and status stay as they were, and the turn goes to the AI. *)
Theorem handleDraw_empty_deck :
  forall s : GameState,
    status s = playing ->
    currentTurn s = player ->
    deck s = [] ->
    deck (handleDraw s) = deck s
    /\ playerHand (handleDraw s) = playerHand s
    /\ aiHand (handleDraw s) = aiHand s
    /\ discardPile (handleDraw s) = discardPile s
    /\ wildSuit (handleDraw s) = wildSuit s
    /\ status (handleDraw s) = status s
    /\ currentTurn (handleDraw s) = ai
    /\ lastAction (handleDraw s) = "Deck empty! Turn skipped."%string.
Proof.
  intros s Hst Ht Hd. unfold handleDraw.
  rewrite Hst, Ht, Hd. simpl. repeat split; reflexivity.
Qed.

(** ** Playing a card *)

(** C4. When the status is playing, the player is to move and the card
    named by [cardId] in the player's hand is an EIGHT that is playable on
    the top card, [playCard] moves to suit_selection and leaves the turn
    (still the player's) and the wild suit as they were. *)
Theorem playCard_eight :
  forall (s : GameState) (cardId : string) (card top : Card),
    status s = playing ->
    currentTurn s = player ->
    find (fun c => String.eqb (id c) cardId) (playerHand s) = Some card ->
    rank card = EIGHT ->
    topCard s = Some top ->
    isPlayable card top (wildSuit s) = true ->
    exists s',
      playCard s cardId = Some s'
      /\ status s' = suit_selection
      /\ currentTurn s' = player
      /\ currentTurn s' = currentTurn s
      /\ wildSuit s' = wildSuit s.
Proof.
  intros s cardId card top Hst Ht Hfind H8 Htop Hplay.
  unfold playCard. rewrite Hst, Ht, Hfind, Htop, Hplay, H8. simpl.
  eexists. split; [reflexivity|]. simpl. repeat split; reflexivity.
Qed.

Lemma playCard_eight_witness :
  exists s',
    playCard Sample.holdsEight "8-spades" = Some s'
    /\ status s' = suit_selection
    /\ currentTurn s' = player
    /\ currentTurn s' = currentTurn Sample.holdsEight
    /\ wildSuit s' = wildSuit Sample.holdsEight.
Proof.
  apply (playCard_eight Sample.holdsEight "8-spades"
           (Sample.card EIGHT SPADES) (Sample.card THREE DIAMONDS));
    reflexivity.
Defined.

(** C6. When the status is playing, the player is to move and the card
    named by [cardId] in the player's hand is not an EIGHT and is playable
    on the top card, [playCard] clears the wild suit and passes the turn to
    the AI; the cards with that id leave the hand, the others stay in
    order, and a face-up copy of the card becomes the top of the discard
    pile, above the cards that were there. *)
Theorem playCard_non_eight :
  forall (s : GameState) (cardId : string) (card top : Card),
    status s = playing ->
    currentTurn s = player ->
    find (fun c => String.eqb (id c) cardId) (playerHand s) = Some card ->
    rank card <> EIGHT ->
    topCard s = Some top ->
    isPlayable card top (wildSuit s) = true ->
    exists s',
      playCard s cardId = Some s'
      /\ wildSuit s' = None
      /\ currentTurn s' = ai
      /\ playerHand s' =
           filter (fun c => negb (String.eqb (id c) cardId)) (playerHand s)
      /\ ~ In card (playerHand s')
      /\ discardPile s' = discardPile s ++ [withFaceUp true card]
      /\ topCard s' = Some (mkCard (id card) (suit card) (rank card) true).
Proof.
  intros s cardId card top Hst Ht Hfind H8 Htop Hplay.
  apply Rank_eqb_neq in H8.
  unfold playCard. rewrite Hst, Ht, Hfind, Htop, Hplay, H8. simpl.
  eexists. split; [reflexivity|].
  destruct (applyWinStatus_fields
    (mkState (deck s)
       (filter (fun c => negb (String.eqb (id c) cardId)) (playerHand s))
       (aiHand s) (discardPile s ++ [withFaceUp true card]) ai playing None
       ("You played " +++ rankValue (rank card) +++ " of "
          +++ suitValue (suit card) +++ ".") (hint s)))
    as (Hd & Hp & Ha & Hdp & Hturn & Hw & _).
  simpl in *. repeat split; try assumption.
  - rewrite Hp. intros Hin. apply filter_In in Hin as [_ Hin].
    apply find_some in Hfind as [_ Hid]. now rewrite Hid in Hin.
  - unfold topCard. rewrite Hdp, length_app. simpl.
    replace (length (discardPile s) + 1 - 1) with (length (discardPile s)) by lia.
    rewrite nth_error_app2 by lia. now rewrite Nat.sub_diag.
Qed.

Lemma playCard_non_eight_witness :
  exists s',
    playCard Sample.lastCard "7-hearts" = Some s'
    /\ wildSuit s' = None
    /\ currentTurn s' = ai
    /\ playerHand s' =
         filter (fun c => negb (String.eqb (id c) "7-hearts"))
                (playerHand Sample.lastCard)
    /\ ~ In (Sample.card SEVEN HEARTS) (playerHand s')
    /\ discardPile s' =
         discardPile Sample.lastCard ++ [withFaceUp true (Sample.card SEVEN HEARTS)]
    /\ topCard s' = Some (mkCard "7-hearts" HEARTS SEVEN true).
Proof.
  apply (playCard_non_eight Sample.lastCard "7-hearts"
           (Sample.card SEVEN HEARTS) (Sample.card SEVEN SPADES));
    solve [reflexivity | discriminate].
Defined.

(** The scenario of the specification: the player's only card, 7 of hearts,
    goes on a 7 of spades and the game is won. *)
Example playCard_last_card_wins :
  option_map status (playCard Sample.lastCard "7-hearts") = Some won.
Proof. reflexivity. Qed.

(** ** Choosing the wild suit *)

(** Whatever the status, [handleSuitSelect] sets the wild suit, passes the
    turn to the AI, and sets the status from the two hands. *)
Lemma handleSuitSelect_effect (s : GameState) (suit : Suit) :
  wildSuit (handleSuitSelect s suit) = Some suit
  /\ currentTurn (handleSuitSelect s suit) = ai
  /\ status (handleSuitSelect s suit) =
       match playerHand s, aiHand s with
       | [], _ => won
       | _ :: _, [] => lost
       | _ :: _, _ :: _ => playing
       end
  /\ deck (handleSuitSelect s suit) = deck s
  /\ playerHand (handleSuitSelect s suit) = playerHand s
  /\ aiHand (handleSuitSelect s suit) = aiHand s
  /\ discardPile (handleSuitSelect s suit) = discardPile s.
Proof.
  unfold handleSuitSelect. cbv zeta.
  match goal with |- context [applyWinStatus ?n] =>
    destruct (applyWinStatus_fields n) as (Hd & Hp & Ha & Hdp & Ht & Hw & _);
    pose proof (applyWinStatus_status n) as Hs
  end.
  simpl in *. tauto.
Qed.

(** C3. A state whose status is playing (the AI to move, hearts chosen) is
    not left as it is by [handleSuitSelect]: the wild suit becomes spades. *)
Theorem handleSuitSelect_unguarded :
  status Sample.chosen = playing
  /\ wildSuit Sample.chosen = Some HEARTS
  /\ wildSuit (handleSuitSelect Sample.chosen SPADES) = Some SPADES
  /\ handleSuitSelect Sample.chosen SPADES <> Sample.chosen.
Proof. repeat split; try reflexivity. discriminate. Qed.

(** A state that no game reaches (see [reachable_ai_hand] below): the suit
    is awaited while the AI holds no card and the player holds one.  There
    the win check of [handleSuitSelect] answers lost. *)
Example handleSuitSelect_outside_game :
  status (handleSuitSelect Sample.choosingAiOut HEARTS) = lost.
Proof. reflexivity. Qed.

Lemma handleDraw_empty_deck_witness :
  deck (handleDraw Sample.emptyDeck) = deck Sample.emptyDeck
  /\ playerHand (handleDraw Sample.emptyDeck) = playerHand Sample.emptyDeck
  /\ aiHand (handleDraw Sample.emptyDeck) = aiHand Sample.emptyDeck
  /\ discardPile (handleDraw Sample.emptyDeck) = discardPile Sample.emptyDeck
  /\ wildSuit (handleDraw Sample.emptyDeck) = wildSuit Sample.emptyDeck
  /\ status (handleDraw Sample.emptyDeck) = status Sample.emptyDeck
  /\ currentTurn (handleDraw Sample.emptyDeck) = ai
  /\ lastAction (handleDraw Sample.emptyDeck) = "Deck empty! Turn skipped."%string.
Proof.
  apply (handleDraw_empty_deck Sample.emptyDeck); reflexivity.
Defined.

(** ** The seed-card loop *)

Lemma seedLoop_eights (c : Card) (tes : list Card) :
  rank c <> EIGHT ->
  forall (acc : list Card) (first : Card) (fuel : nat),
    Forall (fun x => rank x = EIGHT) (first :: tes) ->
    length tes < fuel ->
    seedLoop fuel (acc ++ c :: rev tes) first = Some (rev (first :: tes) ++ acc, c).
Proof.
  intros Hc. apply Rank_eqb_neq in Hc.
  induction tes as [|t tes IH]; intros acc first fuel Hall Hfuel.
  - destruct fuel as [|fuel]; [simpl in Hfuel; lia|].
    apply Forall_inv in Hall. apply Rank_eqb_eq in Hall.
    simpl. rewrite Hall.
    change (first :: acc ++ [c]) with ((first :: acc) ++ [c]).
    rewrite pop_app_last. destruct fuel; simpl; now rewrite Hc.
  - destruct fuel as [|fuel]; [simpl in Hfuel; lia|].
    pose proof (Forall_inv Hall) as H1. apply Rank_eqb_eq in H1.
    apply Forall_inv_tail in Hall.
    cbn [seedLoop]. rewrite H1.
    replace (first :: acc ++ c :: rev (t :: tes))
      with (((first :: acc) ++ c :: rev tes) ++ [t])
      by (simpl; rewrite <- app_assoc; reflexivity).
    rewrite pop_app_last.
    rewrite IH by (trivial; simpl in Hfuel; lia).
    simpl. now rewrite <- !app_assoc.
Qed.

Lemma seedLoop_non_eight (fuel : nat) (d : list Card) (c : Card) :
  rank c <> EIGHT -> seedLoop fuel d c = Some (d, c).
Proof.
  intros Hc. apply Rank_eqb_neq in Hc. destruct fuel; simpl; now rewrite Hc.
Qed.

(** Popping the seed card and running the loop on a deck that reads, bottom
    to top, [rest], a non-eight [c], then eights only: the eights go to the
    bottom in their order and [c] is the seed card. *)
Lemma seed_of_split (rest eights : list Card) (c : Card) :
  rank c <> EIGHT ->
  Forall (fun x => rank x = EIGHT) eights ->
  match pop (rest ++ c :: eights) with
  | Some (first, d') => seedLoop (length d') d' first
  | None => None
  end = Some (eights ++ rest, c).
Proof.
  intros Hc Hall.
  destruct eights as [|e es _] using rev_ind.
  - rewrite pop_app_last. now apply seedLoop_non_eight.
  - replace (rest ++ c :: es ++ [e]) with ((rest ++ c :: es) ++ [e])
      by (rewrite <- app_assoc; reflexivity).
    rewrite pop_app_last.
    rewrite <- (rev_involutive es) at 1 2.
    rewrite seedLoop_eights; trivial.
    + simpl. now rewrite rev_involutive.
    + apply Forall_app in Hall as [Hes He].
      constructor; [now apply Forall_inv in He|].
      apply Forall_forall. intros x Hx. apply in_rev in Hx.
      rewrite Forall_forall in Hes. now apply Hes.
    + rewrite length_app. simpl. rewrite !length_rev. lia.
Qed.

(** A loop that has only eights to cycle through never ends: no bound is
    enough. *)
Lemma seedLoop_only_eights (fuel : nat) :
  forall (d : list Card) (first : Card),
    Forall (fun x => rank x = EIGHT) (first :: d) ->
    seedLoop fuel d first = None.
Proof.
  induction fuel as [|fuel IH]; intros d first Hall;
    pose proof (Forall_inv Hall) as H1; apply Rank_eqb_eq in H1;
    simpl; rewrite H1; [reflexivity|].
  destruct (pop (first :: d)) as [[next d']|] eqn:Hpop; [|reflexivity].
  apply pop_Some in Hpop. apply IH.
  rewrite Hpop in Hall. apply Forall_app in Hall as [Hd' Hn].
  constructor; [now apply Forall_inv in Hn|assumption].
Qed.

(** A larger bound does not change a result. *)
Lemma seedLoop_fuel_mono (fuel : nat) :
  forall (d : list Card) (first : Card) r,
    seedLoop fuel d first = Some r -> seedLoop (S fuel) d first = Some r.
Proof.
  induction fuel as [|fuel IH]; intros d first r H.
  - simpl in H. simpl. destruct (Rank_eqb (rank first) EIGHT); [discriminate|assumption].
  - cbn [seedLoop] in H. cbn [seedLoop].
    destruct (Rank_eqb (rank first) EIGHT); [|assumption].
    destruct (pop (first :: d)) as [[next d']|]; [|discriminate].
    now apply IH.
Qed.

Lemma not_all_eights (l : list Card) :
  forallb isEight l = false -> Exists (fun x => rank x <> EIGHT) l.
Proof.
  induction l as [|b l IH]; simpl; intros H; [discriminate|].
  destruct (isEight b) eqn:Hb.
  - right. now apply IH.
  - left. now apply Rank_eqb_neq.
Qed.

Lemma last_non_eight_split (l : list Card) :
  Exists (fun x => rank x <> EIGHT) l ->
  exists rest c eights,
    l = rest ++ c :: eights
    /\ rank c <> EIGHT
    /\ Forall (fun x => rank x = EIGHT) eights.
Proof.
  induction l as [|a l IH]; intros Hex.
  - inversion Hex.
  - destruct (forallb isEight l) eqn:Hall.
    + rewrite forallb_forall in Hall.
      assert (Hl : Forall (fun x => rank x = EIGHT) l).
      { apply Forall_forall. intros x Hx. now apply Rank_eqb_eq, Hall. }
      exists [], a, l. repeat split; trivial.
      inversion Hex as [? ? Ha|? ? Hex']; subst; trivial.
      apply Exists_exists in Hex' as (x & Hx & Hne).
      rewrite Forall_forall in Hl. now specialize (Hl x Hx).
    + destruct (IH (not_all_eights l Hall)) as (rest & c & eights & -> & Hc & He).
      exists (a :: rest), c, eights. now repeat split.
Qed.

(** The bound [initGame] hands to the loop loses nothing: when the loop
    has no result within as many iterations as the deck has cards, it has
    none within any number. *)
Lemma seedLoop_bound_complete (d : list Card) (first : Card) :
  seedLoop (length d) d first = None ->
  forall fuel, seedLoop fuel d first = None.
Proof.
  intros Hnone fuel.
  destruct (Rank_eqb (rank first) EIGHT) eqn:H1.
  - apply Rank_eqb_eq in H1.
    destruct (forallb isEight d) eqn:Hall.
    + apply seedLoop_only_eights. constructor; [assumption|].
      apply Forall_forall. intros x Hx. rewrite forallb_forall in Hall.
      now apply Rank_eqb_eq, Hall.
    + exfalso.
      destruct (last_non_eight_split d (not_all_eights d Hall))
        as (rest & c & eights & -> & Hc & He).
      rewrite <- (rev_involutive eights) in Hnone.
      rewrite seedLoop_eights in Hnone; trivial; [discriminate| |].
      * constructor; [assumption|]. apply Forall_forall. intros x Hx.
        apply in_rev in Hx. rewrite Forall_forall in He. now apply He.
      * rewrite length_app. simpl. rewrite !length_rev. lia.
  - apply Rank_eqb_neq in H1.
    rewrite seedLoop_non_eight in Hnone by assumption. discriminate.
Qed.

(** ** Decks *)

Lemma filter_length_Permutation {A : Type} (f : A -> bool) (l l' : list A) :
  Permutation l l' -> length (filter f l) = length (filter f l').
Proof.
  induction 1 as [|x l l' _ IH|x y l|l l' l'' _ IH1 _ IH2]; simpl.
  - reflexivity.
  - destruct (f x); simpl; now rewrite IH.
  - destruct (f x), (f y); reflexivity.
  - now rewrite IH1.
Qed.

Lemma filter_isEight_pairs (d : list Card) :
  length (filter isEight d)
  = length (filter (fun p => Rank_eqb (snd p) EIGHT) (map cardPair d)).
Proof.
  induction d as [|c d IH]; simpl; [reflexivity|].
  unfold isEight at 1. destruct (Rank_eqb (rank c) EIGHT); simpl; now rewrite IH.
Qed.

Lemma ShuffledDeck_length (d : list Card) : ShuffledDeck d -> length d = 52.
Proof.
  intros (Hp & _). apply Permutation_length in Hp.
  now rewrite length_map in Hp.
Qed.

Lemma ShuffledDeck_eights (d : list Card) :
  ShuffledDeck d -> length (filter isEight d) = 4.
Proof.
  intros (Hp & _). rewrite filter_isEight_pairs.
  now rewrite (filter_length_Permutation _ _ _ Hp).
Qed.

Lemma filter_all {A : Type} (f : A -> bool) (l : list A) :
  forallb f l = true -> filter f l = l.
Proof.
  induction l as [|a l IH]; simpl; [reflexivity|].
  intros H. apply andb_true_iff in H as [Ha Hl]. rewrite Ha. now rewrite IH.
Qed.

(** After the deal the deck still holds a card that is not an eight. *)
Lemma ShuffledDeck_rest_non_eight (d : list Card) :
  ShuffledDeck d ->
  Exists (fun x => rank x <> EIGHT) (skipn 8 (skipn 8 d)).
Proof.
  intros Hd. apply not_all_eights.
  destruct (forallb isEight (skipn 8 (skipn 8 d))) eqn:Hall; [|reflexivity].
  exfalso.
  pose proof (ShuffledDeck_length d Hd) as Hlen.
  pose proof (ShuffledDeck_eights d Hd) as H8.
  apply filter_all in Hall.
  rewrite <- (firstn_skipn 8 d), filter_app, length_app in H8.
  rewrite <- (firstn_skipn 8 (skipn 8 d)), filter_app, length_app in H8.
  rewrite Hall, !length_skipn in H8. lia.
Qed.

(** The state [initGame] sets for a deck that [createDeck] may return. *)
Lemma initGame_result (d : list Card) :
  ShuffledDeck d ->
  exists rest c eights,
    skipn 8 (skipn 8 d) = rest ++ c :: eights
    /\ rank c <> EIGHT
    /\ Forall (fun x => rank x = EIGHT) eights
    /\ initGame d =
         Some (mkState (eights ++ rest)
                 (map (withFaceUp true) (firstn 8 d))
                 (map (withFaceUp false) (firstn 8 (skipn 8 d)))
                 [withFaceUp true c] player playing None
                 "Game started! Your turn."
                 (Some "Match the suit or rank of the top card."%string)).
Proof.
  intros Hd.
  destruct (last_non_eight_split _ (ShuffledDeck_rest_non_eight d Hd))
    as (rest & c & eights & Hsplit & Hc & He).
  exists rest, c, eights. repeat split; trivial.
  unfold initGame. cbv zeta. rewrite Hsplit.
  pose proof (seed_of_split rest eights c Hc He) as H.
  destruct (pop (rest ++ c :: eights)) as [[first d']|]; [|discriminate].
  now rewrite H.
Qed.

(** C10. For every deck that [createDeck] may return, [initGame] sets a
    state (the seed-card loop ends) whose discard pile is a single card
    that is not an EIGHT: reading the deck left after the deal from bottom
    to top as [rest], a non-eight [c], then eights only, the eights have
    gone to the bottom of the deck, in front of [rest], and [c] is the top
    of the discard pile, face up. *)
Theorem initGame_first_discard_not_eight :
  forall d : list Card,
    ShuffledDeck d ->
    exists (s : GameState) (rest eights : list Card) (c : Card),
      initGame d = Some s
      /\ skipn 8 (skipn 8 d) = rest ++ c :: eights
      /\ Forall (fun x => rank x = EIGHT) eights
      /\ rank c <> EIGHT
      /\ deck s = eights ++ rest
      /\ discardPile s = [withFaceUp true c]
      /\ topCard s = Some (withFaceUp true c)
      /\ rank (withFaceUp true c) <> EIGHT.
Proof.
  intros d Hd.
  destruct (initGame_result d Hd) as (rest & c & eights & Hsplit & Hc & He & Hinit).
  eexists. exists rest, eights, c.
  split; [exact Hinit|]. now repeat split.
Qed.

(** *** Deciding the contract of [createDeck] *)

Lemma pair_eqb_eq (p q : Suit * Rank) : pair_eqb p q = true <-> p = q.
Proof.
  destruct p as [s r], q as [s' r']. unfold pair_eqb. simpl.
  rewrite andb_true_iff, Suit_eqb_eq, Rank_eqb_eq.
  split; [intros [-> ->]; reflexivity | intros [= -> ->]; now split].
Qed.

Lemma nodupb_sound {A : Type} (eqb : A -> A -> bool) :
  (forall x y, eqb x y = true <-> x = y) ->
  forall l, nodupb eqb l = true -> NoDup l.
Proof.
  intros Heq. induction l as [|x l IH]; simpl; intros H.
  - constructor.
  - apply andb_true_iff in H as [Hx Hl]. constructor; [|now apply IH].
    intros Hin. apply negb_true_iff in Hx.
    assert (existsb (eqb x) l = true); [|congruence].
    apply existsb_exists. exists x. split; [assumption|now apply Heq].
Qed.

Lemma NoDup_allPairs : NoDup allPairs.
Proof. apply (nodupb_sound pair_eqb pair_eqb_eq). reflexivity. Qed.

Lemma ShuffledDeckb_sound (d : list Card) :
  ShuffledDeckb d = true -> ShuffledDeck d.
Proof.
  unfold ShuffledDeckb. rewrite !andb_true_iff.
  intros [[[Hlen Hall] Hids] Hface]. repeat split.
  - apply Permutation_sym, NoDup_Permutation_bis.
    + exact NoDup_allPairs.
    + rewrite length_map. apply Nat.eqb_eq in Hlen. rewrite Hlen. reflexivity.
    + intros p Hp. rewrite forallb_forall in Hall.
      specialize (Hall p Hp). apply existsb_exists in Hall as (q & Hq & Hpq).
      apply pair_eqb_eq in Hpq. now subst.
  - apply (nodupb_sound String.eqb String.eqb_eq). exact Hids.
  - apply Forall_forall. intros c Hc. rewrite forallb_forall in Hface.
    specialize (Hface c Hc). now apply negb_true_iff in Hface.
Qed.

Lemma Sample_shuffled_ok : ShuffledDeck Sample.shuffled.
Proof. apply ShuffledDeckb_sound. vm_compute. reflexivity. Qed.

Lemma initGame_first_discard_not_eight_witness :
  exists (s : GameState) (rest eights : list Card) (c : Card),
    initGame Sample.shuffled = Some s
    /\ skipn 8 (skipn 8 Sample.shuffled) = rest ++ c :: eights
    /\ Forall (fun x => rank x = EIGHT) eights
    /\ rank c <> EIGHT
    /\ deck s = eights ++ rest
    /\ discardPile s = [withFaceUp true c]
    /\ topCard s = Some (withFaceUp true c)
    /\ rank (withFaceUp true c) <> EIGHT.
Proof.
  apply (initGame_first_discard_not_eight Sample.shuffled).
  apply ShuffledDeckb_sound. vm_compute. reflexivity.
Defined.

(** On the sample deck the four eights on top go to the bottom of the deck
    and the king of spades seeds the discard pile. *)
Example initGame_sample :
  option_map (fun s => (map erase (firstn 5 (deck s)), map erase (discardPile s),
                        length (deck s)))
             (initGame Sample.shuffled)
  = Some ([("8-hearts", (HEARTS, EIGHT)); ("8-diamonds", (DIAMONDS, EIGHT));
           ("8-clubs", (CLUBS, EIGHT)); ("8-spades", (SPADES, EIGHT));
           ("5-diamonds", (DIAMONDS, FIVE))]%string,
          [("K-spades", (SPADES, KING))]%string, 35).
Proof. vm_compute. reflexivity. Qed.

(** ** Conservation of the cards *)

Lemma erase_withFaceUp (b : bool) (c : Card) : erase (withFaceUp b c) = erase c.
Proof. reflexivity. Qed.

Lemma map_erase_withFaceUp (b : bool) (l : list Card) :
  map erase (map (withFaceUp b) l) = map erase l.
Proof. rewrite map_map. apply map_ext. intros c. apply erase_withFaceUp. Qed.

Lemma map_cardPair_erase (l : list Card) : map cardPair l = map snd (map erase l).
Proof. rewrite map_map. reflexivity. Qed.

Lemma map_id_erase (l : list Card) : map id l = map fst (map erase l).
Proof. rewrite map_map. reflexivity. Qed.

(** A state holding, flags aside, the cards of a list with the 52 pairs
    and no repeated id is conserved. *)
Lemma conserved_of_list (s : GameState) (l : list Card) :
  Permutation (map erase (allCards s)) (map erase l) ->
  Permutation (map cardPair l) allPairs ->
  NoDup (map id l) ->
  conserved s.
Proof.
  intros Hp Hpairs Hids. split.
  - rewrite map_cardPair_erase, Hp, <- map_cardPair_erase. exact Hpairs.
  - rewrite map_id_erase. rewrite map_id_erase in Hids.
    eapply Permutation_NoDup; [|exact Hids].
    apply Permutation_map, Permutation_sym, Hp.
Qed.

Lemma conserved_Permutation (s s' : GameState) :
  Permutation (map erase (allCards s')) (map erase (allCards s)) ->
  conserved s -> conserved s'.
Proof. intros Hp [Hpairs Hids]. now apply (conserved_of_list s' (allCards s)). Qed.

Lemma allCards_applyWinStatus (s : GameState) :
  allCards (applyWinStatus s) = allCards s.
Proof.
  unfold allCards.
  destruct (applyWinStatus_fields s) as (-> & -> & -> & -> & _). reflexivity.
Qed.

Lemma filter_other_ids (i : string) (l : list Card) :
  ~ In i (map id l) ->
  filter (fun c => negb (String.eqb (id c) i)) l = l.
Proof.
  induction l as [|a l IH]; simpl; intros Hn; [reflexivity|].
  destruct (String.eqb_spec (id a) i) as [E|E]; simpl.
  - exfalso. apply Hn. now left.
  - rewrite IH; [reflexivity|]. intros H. apply Hn. now right.
Qed.

(** In a hand without repeated ids, filtering an id out removes exactly the
    card that carries it. *)
Lemma remove_by_id (card : Card) (hand : list Card) :
  In card hand ->
  NoDup (map id hand) ->
  Permutation hand
    (card :: filter (fun c => negb (String.eqb (id c) (id card))) hand).
Proof.
  induction hand as [|a hand IH]; intros Hin Hnd; [destruct Hin|].
  simpl in Hnd. inversion Hnd as [|? ? Hna Hnd']; subst.
  simpl. destruct (String.eqb_spec (id a) (id card)) as [E|E]; simpl.
  - assert (a = card) as ->.
    { destruct Hin as [H|H]; [assumption|].
      exfalso. apply Hna. rewrite E. now apply in_map. }
    now rewrite filter_other_ids.
  - destruct Hin as [H|H]; [congruence|].
    rewrite (IH H Hnd') at 1. apply perm_swap.
Qed.

Lemma conserved_hand_ids (s : GameState) :
  conserved s -> NoDup (map id (playerHand s)) /\ NoDup (map id (aiHand s)).
Proof.
  intros [_ Hids]. unfold allCards in Hids. rewrite !map_app in Hids.
  apply NoDup_app_remove_l in Hids. split.
  - now apply NoDup_app_remove_r in Hids.
  - apply NoDup_app_remove_l in Hids. now apply NoDup_app_remove_r in Hids.
Qed.

Lemma handleDraw_cards (s : GameState) :
  Permutation (map erase (allCards (handleDraw s))) (map erase (allCards s)).
Proof.
  unfold handleDraw.
  destruct (negb (GameStatus_eqb (status s) playing)
            || negb (Turn_eqb (currentTurn s) player)); [reflexivity|].
  cbv zeta. destruct (pop (deck s)) as [[drawn newDeck]|] eqn:Hpop; [|reflexivity].
  apply pop_Some in Hpop. unfold allCards. simpl. rewrite Hpop.
  rewrite !map_app. simpl. rewrite <- !app_assoc. simpl.
  apply Permutation_app_head.
  rewrite (Permutation_middle (map erase (playerHand s)) _ (erase drawn)).
  reflexivity.
Qed.

Lemma playCard_cards (s s' : GameState) (cardId : string) :
  NoDup (map id (playerHand s)) ->
  playCard s cardId = Some s' ->
  Permutation (map erase (allCards s')) (map erase (allCards s)).
Proof.
  intros Hnd. unfold playCard.
  destruct (negb (GameStatus_eqb (status s) playing)
            || negb (Turn_eqb (currentTurn s) player)); [now intros [= <-]|].
  destruct (find _ (playerHand s)) as [card|] eqn:Hfind; [|now intros [= <-]].
  destruct (topCard s) as [top|]; [|discriminate].
  destruct (negb (isPlayable card top (wildSuit s))); [now intros [= <-]|].
  apply find_some in Hfind as [Hin Hid]. apply String.eqb_eq in Hid. subst cardId.
  pose proof (Permutation_map erase (remove_by_id card (playerHand s) Hin Hnd)) as Hp.
  simpl in Hp.
  cbv zeta. destruct (Rank_eqb (rank card) EIGHT); intros [= <-];
    rewrite ?allCards_applyWinStatus; unfold allCards; simpl;
    rewrite !map_app; simpl; rewrite Hp;
    apply Permutation_app_head; rewrite erase_withFaceUp;
    symmetry; simpl; rewrite Permutation_cons_append, <- !app_assoc;
    reflexivity.
Qed.

Lemma handleSuitSelect_cards (s : GameState) (suit : Suit) :
  allCards (handleSuitSelect s suit) = allCards s.
Proof. unfold handleSuitSelect. cbv zeta. now rewrite allCards_applyWinStatus. Qed.

Lemma chooseCard_In (playableCards : list Card) (c : Card) :
  chooseCard playableCards = Some c -> In c playableCards.
Proof.
  unfold chooseCard. destruct playableCards as [|first l]; [discriminate|].
  destruct (find _ (first :: l)) as [nonEight|] eqn:Hfind; intros [= <-].
  - now apply find_some in Hfind.
  - now left.
Qed.

Lemma playableCardsOf_incl top wild (hand playableCards : list Card) :
  playableCardsOf top wild hand = Some playableCards ->
  incl playableCards hand.
Proof.
  unfold playableCardsOf. destruct hand as [|a hand].
  - intros [= <-]. apply incl_refl.
  - destruct top as [t|]; [|discriminate]. intros [= <-].
    intros c Hc.
    change (In c (filter (fun c => isPlayable c t wild) (a :: hand))) in Hc.
    now apply filter_In in Hc.
Qed.

Lemma aiTurn_cards (s s' : GameState) :
  NoDup (map id (aiHand s)) ->
  aiTurn s = Some s' ->
  Permutation (map erase (allCards s')) (map erase (allCards s)).
Proof.
  intros Hnd. unfold aiTurn.
  destruct (GameStatus_eqb (status s) playing && Turn_eqb (currentTurn s) ai);
    [|now intros [= <-]].
  cbv zeta.
  destruct (playableCardsOf _ _ _) as [playableCards|] eqn:Hplayable; [|discriminate].
  destruct (chooseCard playableCards) as [cardToPlay|] eqn:Hchoice.
  - apply chooseCard_In in Hchoice.
    apply (playableCardsOf_incl _ _ _ _ Hplayable) in Hchoice.
    pose proof (Permutation_map erase (remove_by_id cardToPlay (aiHand s) Hchoice Hnd))
      as Hp.
    simpl in Hp.
    destruct (Rank_eqb (rank cardToPlay) EIGHT); intros [= <-];
      rewrite allCards_applyWinStatus; unfold allCards; simpl;
      rewrite !map_app; simpl; rewrite Hp;
      do 2 apply Permutation_app_head; rewrite erase_withFaceUp;
      symmetry; simpl; rewrite Permutation_cons_append, <- !app_assoc;
      reflexivity.
  - destruct (pop (deck s)) as [[drawn newDeck]|] eqn:Hpop; intros [= <-];
      [|reflexivity].
    apply pop_Some in Hpop. unfold allCards. simpl. rewrite Hpop.
    rewrite !map_app. simpl. rewrite <- !app_assoc. simpl.
    apply Permutation_app_head.
    rewrite (Permutation_middle (map erase (playerHand s)) _ (erase drawn)).
    apply Permutation_app_head.
    rewrite (Permutation_middle (map erase (aiHand s)) _ (erase drawn)).
    reflexivity.
Qed.

Lemma topCard_None_iff (s : GameState) : topCard s = None <-> discardPile s = [].
Proof.
  unfold topCard. rewrite nth_error_None.
  destruct (discardPile s); simpl; split; try reflexivity; try discriminate; lia.
Qed.

(** With a card on the discard pile both operations have a result. *)
Lemma playCard_total (s : GameState) (cardId : string) :
  discardPile s <> [] -> exists s', playCard s cardId = Some s'.
Proof.
  intros Hdp. unfold playCard.
  destruct (_ || _); [eauto|].
  destruct (find _ _); [|eauto].
  destruct (topCard s) eqn:Htop; [|now apply topCard_None_iff in Htop].
  destruct (negb _); [eauto|]. cbv zeta. destruct (Rank_eqb _ _); eauto.
Qed.

Lemma aiTurn_total (s : GameState) :
  discardPile s <> [] -> exists s', aiTurn s = Some s'.
Proof.
  intros Hdp. unfold aiTurn.
  destruct (_ && _); [|eauto]. cbv zeta.
  destruct (topCard s) as [t|] eqn:Htop; [|now apply topCard_None_iff in Htop].
  assert (Hp : exists l, playableCardsOf (Some t) (wildSuit s) (aiHand s) = Some l).
  { unfold playableCardsOf. destruct (aiHand s); eauto. }
  destruct Hp as [l ->].
  destruct (chooseCard l).
  - destruct (Rank_eqb _ _); eauto.
  - destruct (pop (deck s)) as [[? ?]|]; eauto.
Qed.

Lemma initGame_conserved (d : list Card) :
  ShuffledDeck d -> exists s, initGame d = Some s /\ conserved s.
Proof.
  intros Hd.
  destruct (initGame_result d Hd) as (rest & c & eights & Hsplit & _ & _ & Hinit).
  eexists. split; [exact Hinit|].
  destruct Hd as (Hpairs & Hids & _).
  apply (conserved_of_list _ d); trivial.
  assert (Hdeal : d = firstn 8 d ++ firstn 8 (skipn 8 d) ++ rest ++ c :: eights).
  { now rewrite <- Hsplit, !firstn_skipn. }
  set (pHand := firstn 8 d) in *. set (aHand := firstn 8 (skipn 8 d)) in *.
  clearbody pHand aHand. rewrite Hdeal at 1.
  unfold allCards. cbn [deck playerHand aiHand discardPile].
  rewrite !map_app, !map_erase_withFaceUp.
  cbn [map]. rewrite erase_withFaceUp.
  rewrite Permutation_app_comm, <- !app_assoc.
  do 2 apply Permutation_app_head. cbn [app].
  rewrite (Permutation_app_comm (map erase eights)).
  apply Permutation_middle.
Qed.

Lemma step_conserved (s s' : GameState) :
  conserved s -> step s s' -> conserved s'.
Proof.
  intros Hs Hstep.
  destruct (conserved_hand_ids s Hs) as [Hp Ha].
  apply (conserved_Permutation s s'); [|exact Hs].
  destruct Hstep as [|cardId s' Hplay|suit|s' Hai].
  - apply handleDraw_cards.
  - now apply (playCard_cards s s' cardId).
  - now rewrite handleSuitSelect_cards.
  - now apply aiTurn_cards.
Qed.








Example handleSuitSelect_in_game_sample :
  option_map
    (fun s0 =>
       option_map (fun s1 => (map id (playerHand s1), status s1,
                              status (handleSuitSelect s1 CLUBS),
                              wildSuit (handleSuitSelect s1 CLUBS)))
                  (playCard s0 "8-spades"))
    (initGame (rev Sample.shuffled))
  = Some (Some (["8-clubs"; "8-diamonds"; "8-hearts"; "K-spades"; "Q-spades";
                 "J-spades"; "10-spades"]%string,
                suit_selection, playing, Some CLUBS)).
Proof. vm_compute. reflexivity. Qed.

(** C9. For every deck that [createDeck] may return, [initGame] sets a
    state whose deck, hands and discard pile together hold each of the 52
    (suit, rank) pairs exactly once with no repeated id; every engine
    operation ([handleDraw], [playCard], [handleSuitSelect], the AI turn)
    keeps this property, and [playCard] and the AI turn do have a result
    when a card lies on the discard pile. *)
Theorem cards_conserved :
  (forall d, ShuffledDeck d -> exists s, initGame d = Some s /\ conserved s)
  /\ (forall s s', conserved s -> step s s' -> conserved s')
  /\ (forall s, discardPile s <> [] ->
        (forall cardId, exists s', playCard s cardId = Some s')
        /\ (exists s', aiTurn s = Some s')).
Proof.
  split; [exact initGame_conserved|]. split.
  - exact step_conserved.
  - intros s Hdp. split.
    + intros cardId. now apply playCard_total.
    + now apply aiTurn_total.
Qed.

Lemma cards_conserved_witness :
  exists s,
    initGame Sample.shuffled = Some s
    /\ conserved s
    /\ conserved (handleDraw s)
    /\ conserved (handleSuitSelect s HEARTS).
Proof.
  destruct cards_conserved as (Hnew & Hstep & _).
  destruct (Hnew Sample.shuffled) as (s & Hs & Hc).
  { apply ShuffledDeckb_sound. vm_compute. reflexivity. }
  exists s. split; [exact Hs|]. split; [exact Hc|]. split.
  - apply (Hstep s _ Hc), step_draw.
  - apply (Hstep s _ Hc), step_select.
Defined.

(** ** The AI's choice of suit *)

Lemma Suit_eq_dec (a b : Suit) : {a = b} + {a <> b}.
Proof. decide equality. Defined.

Lemma countSuits_snoc (hand : list Card) (c : Card) :
  countSuits (hand ++ [c]) = bump (suit c) (countSuits hand).
Proof. unfold countSuits. now rewrite fold_left_app. Qed.

Lemma countSuit_snoc (k : Suit) (hand : list Card) (c : Card) :
  countSuit k (hand ++ [c])
  = countSuit k hand + (if Suit_eqb (suit c) k then 1 else 0).
Proof.
  unfold countSuit. rewrite filter_app, length_app. simpl.
  now destruct (Suit_eqb (suit c) k).
Qed.

Lemma bump_notin (k : Suit) (m : list (Suit * nat)) :
  ~ In k (map fst m) -> bump k m = m ++ [(k, 1)].
Proof.
  induction m as [|[k' n] m IH]; simpl; intros Hn; [reflexivity|].
  destruct (Suit_eqb k' k) eqn:E.
  - apply Suit_eqb_eq in E. exfalso. apply Hn. now left.
  - rewrite IH; [reflexivity|]. intros H. apply Hn. now right.
Qed.

Lemma bump_in (k : Suit) (m : list (Suit * nat)) :
  In k (map fst m) -> map fst (bump k m) = map fst m.
Proof.
  induction m as [|[k' n] m IH]; simpl; intros Hin; [destruct Hin|].
  destruct (Suit_eqb k' k) eqn:E; simpl; [reflexivity|].
  apply Suit_eqb_neq in E. destruct Hin as [H|H]; [congruence|].
  now rewrite IH.
Qed.

(** [bump] keeps the keys in place and adds a new key at the end. *)
Lemma bump_keys (k : Suit) (m : list (Suit * nat)) :
  map fst (bump k m)
  = map fst m ++ (if in_dec Suit_eq_dec k (map fst m) then [] else [k]).
Proof.
  destruct (in_dec Suit_eq_dec k (map fst m)) as [H|H].
  - rewrite app_nil_r. now apply bump_in.
  - rewrite (bump_notin k m H), map_app. reflexivity.
Qed.

Lemma getCount_bump_same (k : Suit) (m : list (Suit * nat)) :
  getCount k (bump k m) = getCount k m + 1.
Proof.
  unfold getCount. induction m as [|[k' n] m IH]; simpl.
  - now rewrite Suit_eqb_refl.
  - destruct (Suit_eqb k' k) eqn:E; simpl; rewrite E; [reflexivity|exact IH].
Qed.

Lemma getCount_bump_other (k k' : Suit) (m : list (Suit * nat)) :
  k' <> k -> getCount k' (bump k m) = getCount k' m.
Proof.
  intros Hne. unfold getCount. induction m as [|[k0 n] m IH]; simpl.
  - assert (Suit_eqb k k' = false) as -> by (apply Suit_eqb_neq; congruence).
    reflexivity.
  - destruct (Suit_eqb k0 k) eqn:E; simpl.
    + apply Suit_eqb_eq in E. subst k0.
      assert (Suit_eqb k k' = false) as -> by (apply Suit_eqb_neq; congruence).
      reflexivity.
    + destruct (Suit_eqb k0 k'); [reflexivity|exact IH].
Qed.

(** The entry of a suit in [suitCounts] is the number of cards of the suit. *)
Lemma getCount_countSuits (k : Suit) (hand : list Card) :
  getCount k (countSuits hand) = countSuit k hand.
Proof.
  induction hand as [|c hand IH] using rev_ind; [reflexivity|].
  rewrite countSuits_snoc, countSuit_snoc.
  destruct (Suit_eqb (suit c) k) eqn:E.
  - apply Suit_eqb_eq in E. subst k. now rewrite getCount_bump_same, IH.
  - apply Suit_eqb_neq in E.
    rewrite getCount_bump_other by congruence. rewrite IH. lia.
Qed.

Lemma getCount_In (k : Suit) (n : nat) (m : list (Suit * nat)) :
  NoDup (map fst m) -> In (k, n) m -> getCount k m = n.
Proof.
  unfold getCount. induction m as [|[k' n'] m IH]; simpl; intros Hnd Hin;
    [destruct Hin|].
  inversion Hnd as [|? ? Hni Hnd']; subst.
  destruct (Suit_eqb k' k) eqn:E.
  - apply Suit_eqb_eq in E. subst k'. destruct Hin as [[= <-]|Hin]; [reflexivity|].
    exfalso. apply Hni. change k with (fst (k, n)). now apply in_map.
  - apply Suit_eqb_neq in E. destruct Hin as [[= -> ->]|Hin]; [congruence|].
    now apply IH.
Qed.

Lemma getCount_bound (k : Suit) (n : nat) (m : list (Suit * nat)) :
  (forall e, In e m -> snd e <= n) -> getCount k m <= n.
Proof.
  intros H. unfold getCount.
  destruct (find _ m) as [e|] eqn:Hfind; [|lia].
  apply find_some in Hfind as [Hin _]. now apply H.
Qed.

Lemma countSuits_keys_NoDup (hand : list Card) : NoDup (map fst (countSuits hand)).
Proof.
  induction hand as [|c hand IH] using rev_ind; [constructor|].
  rewrite countSuits_snoc, bump_keys.
  destruct (in_dec Suit_eq_dec (suit c) (map fst (countSuits hand))) as [H|H].
  - now rewrite app_nil_r.
  - apply NoDup_app; [assumption|repeat constructor; intros []|].
    intros x Hx [<-|[]]. contradiction.
Qed.

(** The keys are the suits of the hand. *)
Lemma countSuits_keys_In (k : Suit) (hand : list Card) :
  In k (map fst (countSuits hand)) <-> exists c, In c hand /\ suit c = k.
Proof.
  induction hand as [|c hand IH] using rev_ind.
  - simpl. split; [intros []|intros (c & [] & _)].
  - rewrite countSuits_snoc, bump_keys, in_app_iff, IH. split.
    + intros [(x & Hx & Hk)|H].
      * exists x. split; [apply in_or_app; now left|assumption].
      * destruct (in_dec _ _ _); [destruct H|].
        destruct H as [<-|[]]. exists c. split; [|reflexivity].
        apply in_or_app. right. now left.
    + intros (x & Hx & Hk). apply in_app_or in Hx as [Hx|[<-|[]]].
      * left. now exists x.
      * destruct (in_dec Suit_eq_dec (suit c) (map fst (countSuits hand))) as [H|H].
        -- left. subst k. now apply IH.
        -- right. subst k. now left.
Qed.

(** Further cards leave the keys so far where they are. *)
Lemma countSuits_keys_app (hand more : list Card) :
  exists extra,
    map fst (countSuits (hand ++ more)) = map fst (countSuits hand) ++ extra.
Proof.
  induction more as [|c more IH] using rev_ind.
  - exists []. now rewrite !app_nil_r.
  - destruct IH as [extra IH].
    rewrite app_assoc, countSuits_snoc, bump_keys, IH, <- app_assoc.
    eexists. reflexivity.
Qed.

(** The head of the sorted entries is the first entry of largest count. *)
Lemma sortDesc_head (entries : list (Suit * nat)) :
  entries <> [] ->
  exists before e after tl,
    entries = before ++ e :: after
    /\ sortDesc entries = e :: tl
    /\ (forall x, In x before -> snd x < snd e)
    /\ (forall x, In x after -> snd x <= snd e).
Proof.
  induction entries as [|a entries IH]; intros Hne; [congruence|].
  destruct entries as [|a' entries'].
  - exists [], a, [], []. repeat split; intros x [].
  - destruct IH as (before & e & after & tl & Hsplit & Hsort & Hlt & Hle);
      [discriminate|].
    change (sortDesc (a :: a' :: entries'))
      with (insertDesc a (sortDesc (a' :: entries'))).
    rewrite Hsort, Hsplit. simpl.
    destruct (snd a <? snd e) eqn:E.
    + apply Nat.ltb_lt in E.
      exists (a :: before), e, after, (insertDesc a tl). repeat split; trivial.
      intros x [<-|Hx]; auto.
    + apply Nat.ltb_ge in E.
      exists [], a, (before ++ e :: after), (e :: tl). repeat split; trivial.
      * intros x [].
      * intros x Hx. apply in_app_or in Hx as [Hx|[<-|Hx]].
        -- specialize (Hlt x Hx). lia.
        -- assumption.
        -- specialize (Hle x Hx). lia.
Qed.

Lemma NoDup_split_unique {A : Type} (b : A) (l1 l2 l1' l2' : list A) :
  NoDup (l1 ++ b :: l2) ->
  l1 ++ b :: l2 = l1' ++ b :: l2' ->
  l1 = l1'.
Proof.
  revert l1'. induction l1 as [|a l1 IH]; intros l1' Hnd Heq.
  - destruct l1' as [|x l1']; [reflexivity|].
    simpl in Heq. injection Heq as <- ->.
    inversion Hnd as [|? ? Hni _]; subst. exfalso. apply Hni.
    apply in_or_app. right. now left.
  - destruct l1' as [|x l1']; simpl in Heq; injection Heq as -> Heq.
    + inversion Hnd as [|? ? Hni _]; subst. exfalso. apply Hni.
      apply in_or_app. right. now left.
    + f_equal. apply IH; [|assumption]. now inversion Hnd.
Qed.

Lemma first_of_suit (b : Suit) (hand : list Card) :
  (exists c, In c hand /\ suit c = b) ->
  exists pre x post,
    hand = pre ++ x :: post
    /\ suit x = b
    /\ (forall y, In y pre -> suit y <> b).
Proof.
  induction hand as [|a hand IH]; intros (c & Hin & Hc); [destruct Hin|].
  destruct (Suit_eq_dec (suit a) b) as [E|E].
  - exists [], a, hand. repeat split; trivial. intros y [].
  - destruct IH as (pre & x & post & -> & Hx & Hpre).
    { destruct Hin as [<-|Hin]; [contradiction|]. now exists c. }
    exists (a :: pre), x, post. repeat split; trivial.
    intros y [<-|Hy]; auto.
Qed.

(** What [bestSuit] picks: SPADES for an empty hand; otherwise a suit of
    the hand no other suit is more frequent than, and every card in front
    of its first card is of a strictly less frequent suit. *)
Lemma bestSuit_spec (hand : list Card) :
  (hand = [] -> bestSuit hand = SPADES)
  /\ (forall s, countSuit s hand <= countSuit (bestSuit hand) hand)
  /\ (hand <> [] ->
      exists pre x post,
        hand = pre ++ x :: post
        /\ suit x = bestSuit hand
        /\ forall y, In y pre ->
             countSuit (suit y) hand < countSuit (bestSuit hand) hand).
Proof.
  split; [intros ->; reflexivity|].
  destruct hand as [|c0 hand0]; [split; [intros s; unfold countSuit; simpl; lia|congruence]|].
  set (hand := c0 :: hand0).
  assert (Hne : countSuits hand <> []).
  { intros H. assert (Hin : In (suit c0) (map fst (countSuits hand))).
    { apply countSuits_keys_In. exists c0. split; [now left|reflexivity]. }
    rewrite H in Hin. destruct Hin. }
  destruct (sortDesc_head _ Hne) as (before & [b n] & after & tl & Hsplit & Hsort & Hlt & Hle).
  assert (Hbest : bestSuit hand = b) by (unfold bestSuit; now rewrite Hsort).
  pose proof (countSuits_keys_NoDup hand) as Hnd.
  assert (Hn : countSuit b hand = n).
  { rewrite <- getCount_countSuits. apply getCount_In; trivial.
    rewrite Hsplit. apply in_or_app. right. now left. }
  rewrite Hbest, Hn. split.
  - intros s. rewrite <- getCount_countSuits. apply getCount_bound.
    intros e He. rewrite Hsplit in He. apply in_app_or in He as [He|[<-|He]].
    + specialize (Hlt e He). simpl in Hlt. lia.
    + simpl. lia.
    + exact (Hle e He).
  - intros _.
    destruct (first_of_suit b hand) as (pre & x & post & Hhand & Hx & Hpre).
    { apply countSuits_keys_In. rewrite Hsplit, map_app. simpl.
      apply in_or_app. right. now left. }
    exists pre, x, post. repeat split; trivial.
    intros y Hy.
    (* the keys in front of [b] are the suits of [pre] *)
    assert (Hkeys : map fst before = map fst (countSuits pre)).
    { destruct (countSuits_keys_app (pre ++ [x]) post) as [extra Hextra].
      rewrite <- app_assoc in Hextra. simpl in Hextra. rewrite <- Hhand in Hextra.
      rewrite countSuits_snoc, bump_notin, map_app, <- app_assoc in Hextra.
      - simpl in Hextra. rewrite Hx in Hextra.
        rewrite Hsplit, map_app in Hextra, Hnd. simpl in Hextra, Hnd.
        exact (NoDup_split_unique _ _ _ _ _ Hnd Hextra).
      - rewrite countSuits_keys_In. intros (z & Hz & Hzx).
        apply (Hpre z Hz). congruence. }
    assert (Hin : In (suit y) (map fst before)).
    { rewrite Hkeys. apply countSuits_keys_In. now exists y. }
    apply in_map_iff in Hin as ([k m] & Hk & Hin). simpl in Hk. subst k.
    specialize (Hlt _ Hin). simpl in Hlt.
    rewrite <- getCount_countSuits.
    rewrite (getCount_In (suit y) m); trivial.
    rewrite Hsplit. apply in_or_app. now left.
Qed.

(** C2, as stated, fails: holding 3 of clubs, 3 of diamonds and 8 of
    spades against a five of hearts, the AI plays the eight and sets the
    wild suit to clubs, the first of the two tied suits in its hand; the
    enumeration order of the suits would give diamonds. *)
Lemma aiTurn_enum_order_counterexample :
  ~ (forall (prev : GameState) (cardToPlay : Card) (s' : GameState),
       status prev = playing ->
       currentTurn prev = ai ->
       cardToPlayOf prev = Some cardToPlay ->
       rank cardToPlay = EIGHT ->
       aiTurn prev = Some s' ->
       wildSuit s' =
         Some (enumOrderBestSuit
                 (filter (fun c => negb (String.eqb (id c) (id cardToPlay)))
                         (aiHand prev)))).
Proof.
  intros H.
  specialize (H Sample.aiTie (Sample.faceDown EIGHT SPADES) _
                eq_refl eq_refl eq_refl eq_refl eq_refl).
  vm_compute in H. discriminate H.
Qed.

Example aiTurn_tie_clubs :
  option_map wildSuit (aiTurn Sample.aiTie) = Some (Some CLUBS)
  /\ enumOrderBestSuit [Sample.faceDown THREE CLUBS; Sample.faceDown THREE DIAMONDS]
     = DIAMONDS.
Proof. split; reflexivity. Qed.

(** With three tied suits the choice is neither the first nor the last of
    them in enumeration order, but the first in the hand. *)
Example aiTurn_tie_three :
  option_map wildSuit (aiTurn Sample.aiTie3) = Some (Some DIAMONDS).
Proof. reflexivity. Qed.

(** C2, amended. When the AI's turn plays an EIGHT, the wild suit it sets
    is a suit that no suit is more frequent than in the AI's hand after
    the played card is removed; among equally frequent suits it is the one
    whose first card comes first in that hand (every card in front of it
    is of a strictly less frequent suit); it is SPADES when that hand is
    empty. *)
Theorem aiTurn_eight_wild_suit :
  forall (prev : GameState) (cardToPlay : Card),
    status prev = playing ->
    currentTurn prev = ai ->
    cardToPlayOf prev = Some cardToPlay ->
    rank cardToPlay = EIGHT ->
    let newHand :=
      filter (fun c => negb (String.eqb (id c) (id cardToPlay))) (aiHand prev) in
    exists (s' : GameState) (b : Suit),
      aiTurn prev = Some s'
      /\ aiHand s' = newHand
      /\ wildSuit s' = Some b
      /\ (newHand = [] -> b = SPADES)
      /\ (forall s, countSuit s newHand <= countSuit b newHand)
      /\ (newHand <> [] ->
          exists pre x post,
            newHand = pre ++ x :: post
            /\ suit x = b
            /\ forall y, In y pre ->
                 countSuit (suit y) newHand < countSuit b newHand).
Proof.
  intros prev cardToPlay Hst Ht Hcard H8 newHand.
  apply Rank_eqb_eq in H8.
  unfold cardToPlayOf in Hcard. unfold aiTurn. rewrite Hst, Ht. simpl.
  destruct (playableCardsOf _ _ _) as [playableCards|]; [|discriminate].
  rewrite Hcard, H8. fold newHand.
  eexists. exists (bestSuit newHand). split; [reflexivity|].
  match goal with |- context [applyWinStatus ?n] =>
    destruct (applyWinStatus_fields n) as (_ & _ & -> & _ & _ & -> & _)
  end.
  simpl. destruct (bestSuit_spec newHand) as (Hempty & Hmax & Hfirst).
  repeat split; assumption.
Qed.

Lemma aiTurn_eight_wild_suit_witness :
  exists (s' : GameState) (b : Suit),
    aiTurn Sample.aiTie3 = Some s'
    /\ aiHand s' = [Sample.faceDown THREE DIAMONDS; Sample.faceDown THREE HEARTS;
                    Sample.faceDown THREE SPADES]
    /\ wildSuit s' = Some b
    /\ ([Sample.faceDown THREE DIAMONDS; Sample.faceDown THREE HEARTS;
         Sample.faceDown THREE SPADES] = [] -> b = SPADES)
    /\ (forall s,
          countSuit s [Sample.faceDown THREE DIAMONDS; Sample.faceDown THREE HEARTS;
                       Sample.faceDown THREE SPADES]
          <= countSuit b [Sample.faceDown THREE DIAMONDS; Sample.faceDown THREE HEARTS;
                          Sample.faceDown THREE SPADES])
    /\ ([Sample.faceDown THREE DIAMONDS; Sample.faceDown THREE HEARTS;
         Sample.faceDown THREE SPADES] <> [] ->
        exists pre x post,
          [Sample.faceDown THREE DIAMONDS; Sample.faceDown THREE HEARTS;
           Sample.faceDown THREE SPADES] = pre ++ x :: post
          /\ suit x = b
          /\ forall y, In y pre ->
               countSuit (suit y)
                 [Sample.faceDown THREE DIAMONDS; Sample.faceDown THREE HEARTS;
                  Sample.faceDown THREE SPADES]
               < countSuit b
                   [Sample.faceDown THREE DIAMONDS; Sample.faceDown THREE HEARTS;
                    Sample.faceDown THREE SPADES]).
Proof.
  apply (aiTurn_eight_wild_suit Sample.aiTie3 (Sample.faceDown EIGHT CLUBS));
    reflexivity.
Defined.

(** * Further properties of the engine *)

(** ** Drawing from a deck that has cards *)

Lemma nonempty_last {A : Type} (l : list A) :
  l <> [] -> exists rest x, l = rest ++ [x].
Proof.
  destruct l as [|a l] using rev_ind; [congruence|]. intros _. now exists l, a.
Qed.

(** X1. When the player may draw and the deck has cards, [handleDraw] takes
    the last card of the deck, turns it face up and puts it at the end of
    the player's hand; the turn goes to the AI and nothing else but the
    log changes. *)
Theorem handleDraw_takes_top :
  forall s : GameState,
    status s = playing ->
    currentTurn s = player ->
    deck s <> [] ->
    exists rest c,
      deck s = rest ++ [c]
      /\ handleDraw s =
           mkState rest (playerHand s ++ [mkCard (id c) (suit c) (rank c) true])
                   (aiHand s) (discardPile s) ai playing (wildSuit s)
                   "You drew a card." (hint s).
Proof.
  intros s Hst Ht Hd.
  destruct (nonempty_last (deck s) Hd) as (rest & c & Hdeck).
  exists rest, c. split; [assumption|].
  unfold handleDraw. rewrite Hst, Ht, Hdeck, pop_app_last. reflexivity.
Qed.

Lemma handleDraw_takes_top_witness :
  exists rest c,
    deck Sample.holdsEight = rest ++ [c]
    /\ handleDraw Sample.holdsEight =
         mkState rest
                 (playerHand Sample.holdsEight
                    ++ [mkCard (id c) (suit c) (rank c) true])
                 (aiHand Sample.holdsEight) (discardPile Sample.holdsEight)
                 ai playing (wildSuit Sample.holdsEight)
                 "You drew a card." (hint Sample.holdsEight).
Proof.
  apply (handleDraw_takes_top Sample.holdsEight);
    solve [reflexivity | discriminate].
Defined.

(** ** Acting out of turn *)

Lemma status_playing_dec (s : GameState) (t : Turn) :
  GameStatus_eqb (status s) playing && Turn_eqb (currentTurn s) t = true
  <-> status s = playing /\ currentTurn s = t.
Proof. now rewrite andb_true_iff, GameStatus_eqb_eq, Turn_eqb_eq. Qed.

Lemma aiTurn_gives_turn (s s' : GameState) :
  status s = playing -> currentTurn s = ai ->
  aiTurn s = Some s' -> currentTurn s' = player.
Proof.
  intros Hst Ht. unfold aiTurn. rewrite Hst, Ht. simpl.
  destruct (playableCardsOf _ _ _) as [l|]; [|discriminate].
  destruct (chooseCard l) as [c|].
  - destruct (Rank_eqb _ _); intros [= <-];
      match goal with |- context [applyWinStatus ?n] =>
        destruct (applyWinStatus_fields n) as (_ & _ & _ & _ & -> & _)
      end; reflexivity.
  - destruct (pop (deck s)) as [[? ?]|]; intros [= <-]; reflexivity.
Qed.

(** X2. [handleDraw] leaves the state as it is exactly when the status is
    not playing or it is not the player's turn, and the AI turn returns
    the state as it is exactly when the status is not playing or it is not
    the AI's turn: in turn, each of them changes the state. *)
Theorem out_of_turn_unchanged :
  forall s : GameState,
    (handleDraw s = s <-> ~ (status s = playing /\ currentTurn s = player))
    /\ (aiTurn s = Some s <-> ~ (status s = playing /\ currentTurn s = ai)).
Proof.
  intros s. split; split.
  - intros Heq [Hst Ht].
    assert (H : currentTurn (handleDraw s) = ai).
    { unfold handleDraw. rewrite Hst, Ht. simpl.
      destruct (pop (deck s)) as [[? ?]|]; reflexivity. }
    rewrite Heq in H. congruence.
  - intros Hn. unfold handleDraw.
    destruct (GameStatus_eqb (status s) playing) eqn:E1; [|reflexivity].
    destruct (Turn_eqb (currentTurn s) player) eqn:E2; [|reflexivity].
    exfalso. apply Hn. split; [now apply GameStatus_eqb_eq|now apply Turn_eqb_eq].
  - intros Heq [Hst Ht].
    pose proof (aiTurn_gives_turn s s Hst Ht Heq). congruence.
  - intros Hn. unfold aiTurn.
    destruct (GameStatus_eqb (status s) playing && Turn_eqb (currentTurn s) ai)
      eqn:E; [|reflexivity].
    exfalso. apply Hn. now apply status_playing_dec.
Qed.

(** ** Plays that are not accepted *)

Lemma app_one_neq {A : Type} (l : list A) (x : A) : l ++ [x] <> l.
Proof.
  intros H. apply (f_equal (@length A)) in H. rewrite length_app in H.
  simpl in H. lia.
Qed.

(** X3. With a card on the discard pile, [playCard] returns the state as
    it is exactly when the status is not playing, or it is not the
    player's turn, or no card of the hand has the id, or the card the id
    names is not playable on the top card. *)
Theorem playCard_unchanged_iff :
  forall (s : GameState) (cardId : string) (top : Card),
    topCard s = Some top ->
    (playCard s cardId = Some s <->
       status s <> playing
       \/ currentTurn s <> player
       \/ match find (fun c => String.eqb (id c) cardId) (playerHand s) with
          | None => True
          | Some card => isPlayable card top (wildSuit s) = false
          end).
Proof.
  intros s cardId top Htop. unfold playCard. rewrite Htop.
  destruct (GameStatus_eqb (status s) playing) eqn:E1; simpl.
  2:{ split; [|reflexivity]. intros _. left.
      intros H. apply GameStatus_eqb_eq in H. congruence. }
  destruct (Turn_eqb (currentTurn s) player) eqn:E2; simpl.
  2:{ split; [|reflexivity]. intros _. right; left.
      intros H. apply Turn_eqb_eq in H. congruence. }
  apply GameStatus_eqb_eq in E1. apply Turn_eqb_eq in E2.
  destruct (find _ (playerHand s)) as [card|]; [|tauto].
  destruct (isPlayable card top (wildSuit s)); simpl; [|tauto].
  split.
  - intros H. exfalso.
    assert (Hdp : exists s', Some s' = Some s
                   /\ discardPile s' = discardPile s ++ [withFaceUp true card]).
    { destruct (Rank_eqb (rank card) EIGHT); eexists; (split; [exact H|]);
        [reflexivity|].
      match goal with |- context [applyWinStatus ?n] =>
        destruct (applyWinStatus_fields n) as (_ & _ & _ & -> & _)
      end. reflexivity. }
    destruct Hdp as (s' & [= ->] & Hdp). symmetry in Hdp.
    exact (app_one_neq _ _ Hdp).
  - intros [H|[H|H]]; congruence.
Qed.

Lemma playCard_unchanged_iff_witness :
  playCard Table.stuck "7-hearts" = Some Table.stuck <->
    status Table.stuck <> playing
    \/ currentTurn Table.stuck <> player
    \/ match find (fun c => String.eqb (id c) "7-hearts")
                  (playerHand Table.stuck) with
       | None => True
       | Some card =>
           isPlayable card (Sample.card KING DIAMONDS) (wildSuit Table.stuck)
           = false
       end.
Proof.
  apply (playCard_unchanged_iff Table.stuck "7-hearts" (Sample.card KING DIAMONDS)).
  reflexivity.
Defined.

(** ** Plays that are accepted *)

(** What an accepted play does to the collections. *)
Lemma playCard_accepted (s s' : GameState) (cardId : string) :
  playCard s cardId = Some s' ->
  s' <> s ->
  exists card,
    find (fun c => String.eqb (id c) cardId) (playerHand s) = Some card
    /\ deck s' = deck s
    /\ playerHand s' =
         filter (fun c => negb (String.eqb (id c) cardId)) (playerHand s)
    /\ aiHand s' = aiHand s
    /\ discardPile s' = discardPile s ++ [withFaceUp true card].
Proof.
  unfold playCard.
  destruct (_ || _); [intros [= <-]; congruence|].
  destruct (find _ (playerHand s)) as [card|]; [|intros [= <-]; congruence].
  destruct (topCard s) as [top|]; [|discriminate].
  destruct (negb _); [intros [= <-]; congruence|].
  cbv zeta. intros H _. exists card. split; [reflexivity|].
  destruct (Rank_eqb (rank card) EIGHT); injection H as <-.
  - simpl. now repeat split.
  - match goal with |- context [applyWinStatus ?n] =>
      destruct (applyWinStatus_fields n) as (-> & -> & -> & -> & _)
    end. simpl. now repeat split.
Qed.

(** X4. When no two cards of the player's hand share an id, a play that
    changes the state takes exactly one card out of the hand and puts one
    card on the discard pile; the deck and the AI's hand are untouched. *)
Theorem playCard_moves_one_card :
  forall (s s' : GameState) (cardId : string),
    NoDup (map id (playerHand s)) ->
    playCard s cardId = Some s' ->
    s' <> s ->
    length (playerHand s') + 1 = length (playerHand s)
    /\ length (discardPile s') = length (discardPile s) + 1
    /\ deck s' = deck s
    /\ aiHand s' = aiHand s.
Proof.
  intros s s' cardId Hnd Hplay Hne.
  destruct (playCard_accepted s s' cardId Hplay Hne)
    as (card & Hfind & Hd & Hp & Ha & Hdp).
  apply find_some in Hfind as [Hin Hid]. apply String.eqb_eq in Hid. subst cardId.
  pose proof (Permutation_length (remove_by_id card (playerHand s) Hin Hnd)) as Hlen.
  simpl in Hlen. rewrite Hp, Hdp, length_app. simpl. repeat split; trivial; lia.
Qed.

Lemma playCard_moves_one_card_witness :
  exists s',
    playCard Sample.holdsEight "8-spades" = Some s'
    /\ length (playerHand s') + 1 = length (playerHand Sample.holdsEight)
    /\ length (discardPile s') = length (discardPile Sample.holdsEight) + 1
    /\ deck s' = deck Sample.holdsEight
    /\ aiHand s' = aiHand Sample.holdsEight.
Proof.
  eexists. split; [reflexivity|].
  apply (playCard_moves_one_card Sample.holdsEight _ "8-spades").
  - apply (nodupb_sound String.eqb String.eqb_eq). reflexivity.
  - reflexivity.
  - discriminate.
Defined.

(** X5. An accepted play of a card that is not an EIGHT ends the game at
    once when it empties a hand: the status is won when the player's hand
    is left empty, lost when the player keeps cards and the AI has none,
    and stays playing otherwise; the log names the card. *)
Theorem playCard_non_eight_status :
  forall (s : GameState) (cardId : string) (card top : Card),
    status s = playing ->
    currentTurn s = player ->
    find (fun c => String.eqb (id c) cardId) (playerHand s) = Some card ->
    rank card <> EIGHT ->
    topCard s = Some top ->
    isPlayable card top (wildSuit s) = true ->
    exists s',
      playCard s cardId = Some s'
      /\ status s' =
           match filter (fun c => negb (String.eqb (id c) cardId)) (playerHand s),
                 aiHand s with
           | [], _ => won
           | _ :: _, [] => lost
           | _ :: _, _ :: _ => playing
           end
      /\ lastAction s' =
           ("You played " +++ rankValue (rank card) +++ " of "
              +++ suitValue (suit card) +++ ".").
Proof.
  intros s cardId card top Hst Ht Hfind H8 Htop Hplay.
  apply Rank_eqb_neq in H8.
  unfold playCard. rewrite Hst, Ht, Hfind, Htop, Hplay, H8. simpl.
  eexists. split; [reflexivity|].
  match goal with |- context [applyWinStatus ?n] =>
    rewrite (applyWinStatus_status n);
    destruct (applyWinStatus_fields n) as (_ & _ & _ & _ & _ & _ & ->)
  end.
  split; reflexivity.
Qed.

Lemma playCard_non_eight_status_witness :
  exists s',
    playCard Sample.lastCard "7-hearts" = Some s'
    /\ status s' =
         match filter (fun c => negb (String.eqb (id c) "7-hearts"))
                      (playerHand Sample.lastCard),
               aiHand Sample.lastCard with
         | [], _ => won
         | _ :: _, [] => lost
         | _ :: _, _ :: _ => playing
         end
    /\ lastAction s' = "You played 7 of hearts."%string.
Proof.
  apply (playCard_non_eight_status Sample.lastCard "7-hearts"
           (Sample.card SEVEN HEARTS) (Sample.card SEVEN SPADES));
    solve [reflexivity | discriminate].
Defined.

(** X6. On the player's turn an EIGHT of the hand is accepted on any top
    card and under any wild suit, without a win check: the status is
    suit_selection even when the hand is left empty.  The suit choice that
    follows sets the wild suit, passes the turn to the AI with the eight,
    face up, on top of the discard pile, and settles the status from the
    hands: won when the eight was the player's last card. *)
Theorem playCard_eight_then_select :
  forall (s : GameState) (cardId : string) (card top : Card) (chosen : Suit),
    status s = playing ->
    currentTurn s = player ->
    find (fun c => String.eqb (id c) cardId) (playerHand s) = Some card ->
    rank card = EIGHT ->
    topCard s = Some top ->
    exists s1,
      playCard s cardId = Some s1
      /\ status s1 = suit_selection
      /\ playerHand s1 =
           filter (fun c => negb (String.eqb (id c) cardId)) (playerHand s)
      /\ wildSuit (handleSuitSelect s1 chosen) = Some chosen
      /\ currentTurn (handleSuitSelect s1 chosen) = ai
      /\ topCard (handleSuitSelect s1 chosen)
         = Some (mkCard (id card) (suit card) EIGHT true)
      /\ status (handleSuitSelect s1 chosen) =
           match playerHand s1, aiHand s with
           | [], _ => won
           | _ :: _, [] => lost
           | _ :: _, _ :: _ => playing
           end.
Proof.
  intros s cardId card top chosen Hst Ht Hfind H8 Htop.
  assert (Hplay : isPlayable card top (wildSuit s) = true).
  { unfold isPlayable. rewrite H8. reflexivity. }
  unfold playCard. rewrite Hst, Ht, Hfind, Htop, Hplay, H8. simpl.
  eexists. split; [reflexivity|]. simpl. do 2 (split; [reflexivity|]).
  match goal with |- context [handleSuitSelect ?n chosen] =>
    destruct (handleSuitSelect_effect n chosen)
      as (Hw & Hturn & Hs & _ & _ & _ & Hdp)
  end.
  simpl in *. repeat split; trivial.
  unfold topCard. rewrite Hdp, length_app. simpl.
  replace (length (discardPile s) + 1 - 1) with (length (discardPile s)) by lia.
  rewrite nth_error_app2 by lia. rewrite Nat.sub_diag. simpl.
  unfold withFaceUp. now rewrite H8.
Qed.

Lemma playCard_eight_then_select_witness :
  exists s1,
    playCard Table.lastEight "8-spades" = Some s1
    /\ status s1 = suit_selection
    /\ playerHand s1 =
         filter (fun c => negb (String.eqb (id c) "8-spades"))
                (playerHand Table.lastEight)
    /\ wildSuit (handleSuitSelect s1 HEARTS) = Some HEARTS
    /\ currentTurn (handleSuitSelect s1 HEARTS) = ai
    /\ topCard (handleSuitSelect s1 HEARTS)
       = Some (mkCard "8-spades" SPADES EIGHT true)
    /\ status (handleSuitSelect s1 HEARTS) =
         match playerHand s1, aiHand Table.lastEight with
         | [], _ => won
         | _ :: _, [] => lost
         | _ :: _, _ :: _ => playing
         end.
Proof.
  apply (playCard_eight_then_select Table.lastEight "8-spades"
           (Sample.card EIGHT SPADES) (Sample.card THREE DIAMONDS) HEARTS);
    reflexivity.
Defined.

Example lastEight_wins_at_selection :
  option_map (fun s1 => (status s1, status (handleSuitSelect s1 HEARTS)))
             (playCard Table.lastEight "8-spades")
  = Some (suit_selection, won).
Proof. reflexivity. Qed.

(** ** The AI's move *)

Lemma find_split {A : Type} (f : A -> bool) (l : list A) (x : A) :
  find f l = Some x ->
  exists before after,
    l = before ++ x :: after
    /\ f x = true
    /\ (forall y, In y before -> f y = false).
Proof.
  induction l as [|a l IH]; simpl; [discriminate|].
  destruct (f a) eqn:Ha.
  - intros [= <-]. exists [], l. repeat split; trivial. intros y [].
  - intros H. destruct (IH H) as (before & after & -> & Hx & Hb).
    exists (a :: before), after. repeat split; trivial.
    intros y [<-|Hy]; auto.
Qed.

Lemma find_filter {A : Type} (p q : A -> bool) (l : list A) :
  find q (filter p l) = find (fun x => p x && q x) l.
Proof.
  induction l as [|a l IH]; simpl; [reflexivity|].
  destruct (p a); simpl; [|exact IH]. destruct (q a); [reflexivity|exact IH].
Qed.

Lemma filter_head_find {A : Type} (p : A -> bool) (l r : list A) (x : A) :
  filter p l = x :: r -> find p l = Some x.
Proof.
  induction l as [|a l IH]; simpl; [discriminate|].
  destruct (p a); [now intros [= <- _]|exact IH].
Qed.

Lemma playableCardsOf_top (top : Card) (wild : option Suit) (hand : list Card) :
  playableCardsOf (Some top) wild hand
  = Some (filter (fun c => isPlayable c top wild) hand).
Proof. destruct hand; reflexivity. Qed.

(** X7. The card the AI plays is a playable card of its hand: the first
    playable card that is not an EIGHT, in hand order, when there is one,
    and the first playable card otherwise.  So the AI plays an EIGHT only
    when every playable card it holds is an EIGHT, and of the cards in
    front of the played one only eights can be playable, and those only
    when the played card is not an eight. *)
Theorem aiTurn_card_choice :
  forall (prev : GameState) (top c : Card),
    topCard prev = Some top ->
    cardToPlayOf prev = Some c ->
    isPlayable c top (wildSuit prev) = true
    /\ (rank c = EIGHT ->
        forall x, In x (aiHand prev) ->
                  isPlayable x top (wildSuit prev) = true -> rank x = EIGHT)
    /\ exists before after,
         aiHand prev = before ++ c :: after
         /\ forall x, In x before ->
                      isPlayable x top (wildSuit prev) = true ->
                      rank x = EIGHT /\ rank c <> EIGHT.
Proof.
  intros prev top c Htop. unfold cardToPlayOf.
  rewrite Htop, playableCardsOf_top. unfold chooseCard.
  set (p := fun c => isPlayable c top (wildSuit prev)).
  set (q := fun c => negb (Rank_eqb (rank c) EIGHT)).
  destruct (filter p (aiHand prev)) as [|first l] eqn:Hfilter; [discriminate|].
  rewrite <- Hfilter, find_filter.
  destruct (find (fun x => p x && q x) (aiHand prev)) as [nonEight|] eqn:Hfind;
    intros [= <-].
  - destruct (find_split _ _ _ Hfind) as (before & after & Hhand & Hc & Hb).
    apply andb_true_iff in Hc as [Hp Hq].
    apply negb_true_iff, Rank_eqb_neq in Hq.
    split; [exact Hp|]. split; [contradiction|].
    exists before, after. split; [assumption|].
    intros x Hx Hpx. specialize (Hb x Hx). unfold p in Hb. rewrite Hpx in Hb.
    simpl in Hb. apply negb_false_iff, Rank_eqb_eq in Hb. now split.
  - apply filter_head_find in Hfilter.
    destruct (find_split _ _ _ Hfilter) as (before & after & Hhand & Hp & Hb).
    split; [exact Hp|]. split.
    + intros _ x Hx Hpx.
      pose proof (find_none _ _ Hfind x Hx) as Hn. unfold p in Hn.
      rewrite Hpx in Hn. simpl in Hn. now apply negb_false_iff, Rank_eqb_eq in Hn.
    + exists before, after. split; [assumption|].
      intros x Hx Hpx. specialize (Hb x Hx). unfold p in Hb. congruence.
Qed.

Lemma aiTurn_card_choice_witness :
  isPlayable (Sample.faceDown FIVE DIAMONDS) (Sample.card KING DIAMONDS)
             (wildSuit Table.aiChoice) = true
  /\ (rank (Sample.faceDown FIVE DIAMONDS) = EIGHT ->
      forall x, In x (aiHand Table.aiChoice) ->
                isPlayable x (Sample.card KING DIAMONDS)
                           (wildSuit Table.aiChoice) = true ->
                rank x = EIGHT)
  /\ exists before after,
       aiHand Table.aiChoice = before ++ Sample.faceDown FIVE DIAMONDS :: after
       /\ forall x, In x before ->
                    isPlayable x (Sample.card KING DIAMONDS)
                               (wildSuit Table.aiChoice) = true ->
                    rank x = EIGHT
                    /\ rank (Sample.faceDown FIVE DIAMONDS) <> EIGHT.
Proof.
  apply (aiTurn_card_choice Table.aiChoice); reflexivity.
Defined.

(** X8. With a card on the discard pile, the AI has no card to play exactly
    when no card of its hand is playable.  Its turn is then a draw: the
    last card of the deck goes, face down, to the end of its hand, or,
    on an empty deck, nothing moves; either way the turn passes to the
    player and the wild suit stays. *)
Theorem aiTurn_draws_iff_stuck :
  forall (prev : GameState) (top : Card),
    status prev = playing ->
    currentTurn prev = ai ->
    topCard prev = Some top ->
    (cardToPlayOf prev = None <->
       forall x, In x (aiHand prev) -> isPlayable x top (wildSuit prev) = false)
    /\ (cardToPlayOf prev = None ->
        (deck prev = [] ->
         aiTurn prev =
           Some (mkState [] (playerHand prev) (aiHand prev) (discardPile prev)
                   player playing (wildSuit prev)
                   "AI deck empty! Turn skipped." (hint prev)))
        /\ (forall rest c, deck prev = rest ++ [c] ->
            aiTurn prev =
              Some (mkState rest (playerHand prev)
                      (aiHand prev ++ [mkCard (id c) (suit c) (rank c) false])
                      (discardPile prev) player playing (wildSuit prev)
                      "AI drew a card." (hint prev)))).
Proof.
  intros prev top Hst Ht Htop.
  assert (Hiff : cardToPlayOf prev = None <->
            forall x, In x (aiHand prev) -> isPlayable x top (wildSuit prev) = false).
  { unfold cardToPlayOf. rewrite Htop, playableCardsOf_top. split.
    - intros Hnone x Hx.
      destruct (isPlayable x top (wildSuit prev)) eqn:Hp; [|reflexivity].
      assert (Hin : In x (filter (fun c => isPlayable c top (wildSuit prev))
                                 (aiHand prev))) by (apply filter_In; now split).
      unfold chooseCard in Hnone.
      destruct (filter _ (aiHand prev)) as [|first l]; [destruct Hin|].
      destruct (find _ (first :: l)); discriminate.
    - intros Hall.
      assert (Hnil : filter (fun c => isPlayable c top (wildSuit prev))
                            (aiHand prev) = []).
      { destruct (filter _ (aiHand prev)) as [|first l] eqn:Hf; [reflexivity|].
        assert (Hin : In first (first :: l)) by now left.
        rewrite <- Hf in Hin. apply filter_In in Hin as [Hin Hp].
        rewrite (Hall first Hin) in Hp. discriminate. }
      now rewrite Hnil. }
  split; [exact Hiff|].
  intros Hnone. unfold cardToPlayOf in Hnone. unfold aiTurn.
  rewrite Hst, Ht. simpl.
  destruct (playableCardsOf _ _ _) as [l|] eqn:Hl;
    [|rewrite Htop, playableCardsOf_top in Hl; discriminate].
  rewrite Hnone. split.
  - intros ->. reflexivity.
  - intros rest c ->. now rewrite pop_app_last.
Qed.

Lemma aiTurn_draws_iff_stuck_witness :
  (cardToPlayOf Table.aiStuck = None <->
     forall x, In x (aiHand Table.aiStuck) ->
               isPlayable x (Sample.card KING DIAMONDS) (wildSuit Table.aiStuck)
               = false)
  /\ (cardToPlayOf Table.aiStuck = None ->
      (deck Table.aiStuck = [] ->
       aiTurn Table.aiStuck =
         Some (mkState [] (playerHand Table.aiStuck) (aiHand Table.aiStuck)
                 (discardPile Table.aiStuck) player playing
                 (wildSuit Table.aiStuck)
                 "AI deck empty! Turn skipped." (hint Table.aiStuck)))
      /\ (forall rest c, deck Table.aiStuck = rest ++ [c] ->
          aiTurn Table.aiStuck =
            Some (mkState rest (playerHand Table.aiStuck)
                    (aiHand Table.aiStuck
                       ++ [mkCard (id c) (suit c) (rank c) false])
                    (discardPile Table.aiStuck) player playing
                    (wildSuit Table.aiStuck)
                    "AI drew a card." (hint Table.aiStuck)))).
Proof.
  apply (aiTurn_draws_iff_stuck Table.aiStuck (Sample.card KING DIAMONDS));
    reflexivity.
Defined.

Example aiStuck_draws :
  option_map (fun s => (map id (deck s), map id (aiHand s), currentTurn s))
             (aiTurn Table.aiStuck)
  = Some (["A-clubs"], ["2-clubs"; "9-spades"; "4-hearts"], player)%string.
Proof. reflexivity. Qed.

(** X9. When the AI plays a card, all cards with its id leave the AI's
    hand, a face-up copy goes on top of the discard pile and the turn
    passes to the player; the wild suit is cleared unless the card is an
    EIGHT; and the status becomes lost when the AI's hand is left empty
    while the player holds cards (won when the player holds none). *)
Theorem aiTurn_plays :
  forall (prev : GameState) (c : Card),
    status prev = playing ->
    currentTurn prev = ai ->
    cardToPlayOf prev = Some c ->
    let newHand :=
      filter (fun x => negb (String.eqb (id x) (id c))) (aiHand prev) in
    exists s',
      aiTurn prev = Some s'
      /\ aiHand s' = newHand
      /\ discardPile s' = discardPile prev ++ [mkCard (id c) (suit c) (rank c) true]
      /\ deck s' = deck prev
      /\ playerHand s' = playerHand prev
      /\ currentTurn s' = player
      /\ (rank c <> EIGHT ->
          wildSuit s' = None
          /\ lastAction s' =
               ("AI played " +++ rankValue (rank c) +++ " of "
                  +++ suitValue (suit c) +++ "."))
      /\ status s' =
           match playerHand prev, newHand with
           | [], _ => won
           | _ :: _, [] => lost
           | _ :: _, _ :: _ => playing
           end.
Proof.
  intros prev c Hst Ht Hcard newHand.
  unfold cardToPlayOf in Hcard. unfold aiTurn. rewrite Hst, Ht. simpl.
  destruct (playableCardsOf _ _ _) as [l|]; [|discriminate].
  rewrite Hcard. fold newHand.
  destruct (Rank_eqb (rank c) EIGHT) eqn:H8; eexists; (split; [reflexivity|]);
    match goal with |- context [applyWinStatus ?n] =>
      rewrite (applyWinStatus_status n);
      destruct (applyWinStatus_fields n) as (-> & -> & -> & -> & -> & -> & ->)
    end; simpl; (do 5 (split; [reflexivity|])); (split; [|reflexivity]);
    intros Hne.
  - apply Rank_eqb_eq in H8. contradiction.
  - split; reflexivity.
Qed.

Lemma aiTurn_plays_witness :
  exists s',
    aiTurn Table.aiChoice = Some s'
    /\ aiHand s' =
         filter (fun x => negb (String.eqb (id x) "5-diamonds"))
                (aiHand Table.aiChoice)
    /\ discardPile s' =
         discardPile Table.aiChoice ++ [mkCard "5-diamonds" DIAMONDS FIVE true]
    /\ deck s' = deck Table.aiChoice
    /\ playerHand s' = playerHand Table.aiChoice
    /\ currentTurn s' = player
    /\ (FIVE <> EIGHT ->
        wildSuit s' = None
        /\ lastAction s' = "AI played 5 of diamonds."%string)
    /\ status s' =
         match playerHand Table.aiChoice,
               filter (fun x => negb (String.eqb (id x) "5-diamonds"))
                      (aiHand Table.aiChoice) with
         | [], _ => won
         | _ :: _, [] => lost
         | _ :: _, _ :: _ => playing
         end.
Proof.
  apply (aiTurn_plays Table.aiChoice (Sample.faceDown FIVE DIAMONDS));
    reflexivity.
Defined.

(** ** Starting a game: the deal *)

(** X10. For every deck that [createDeck] may return, [initGame] deals the
    first eight cards, face up, to the player and the next eight, face
    down, to the AI, in deck order; one card seeds the discard pile and 35
    stay in the deck; the player is to move, the status is playing and no
    wild suit is set. *)
Theorem initGame_deal :
  forall d : list Card,
    ShuffledDeck d ->
    exists s,
      initGame d = Some s
      /\ playerHand s = map (withFaceUp true) (firstn 8 d)
      /\ aiHand s = map (withFaceUp false) (firstn 8 (skipn 8 d))
      /\ length (playerHand s) = 8
      /\ length (aiHand s) = 8
      /\ length (deck s) = 35
      /\ length (discardPile s) = 1
      /\ currentTurn s = player
      /\ status s = playing
      /\ wildSuit s = None.
Proof.
  intros d Hd.
  destruct (initGame_result d Hd) as (rest & c & eights & Hsplit & _ & _ & Hinit).
  pose proof (ShuffledDeck_length d Hd) as Hlen.
  eexists. split; [exact Hinit|]. cbn [playerHand aiHand deck discardPile
    currentTurn status wildSuit].
  apply (f_equal (@length Card)) in Hsplit.
  rewrite !length_skipn, length_app in Hsplit. cbn [length] in Hsplit.
  rewrite !length_map, !length_firstn, length_skipn, length_app, Hlen.
  repeat split; try reflexivity. lia.
Qed.

Lemma initGame_deal_witness :
  exists s,
    initGame Sample.shuffled = Some s
    /\ playerHand s = map (withFaceUp true) (firstn 8 Sample.shuffled)
    /\ aiHand s = map (withFaceUp false) (firstn 8 (skipn 8 Sample.shuffled))
    /\ length (playerHand s) = 8
    /\ length (aiHand s) = 8
    /\ length (deck s) = 35
    /\ length (discardPile s) = 1
    /\ currentTurn s = player
    /\ status s = playing
    /\ wildSuit s = None.
Proof.
  apply (initGame_deal Sample.shuffled).
  apply ShuffledDeckb_sound. vm_compute. reflexivity.
Defined.

(** X11. For any deck at all, [initGame] sets no state exactly when every
    card left after dealing sixteen is an EIGHT: with no card left the
    first [pop] has nothing to give, and with eights only the seed loop
    cycles through them without end. *)
Theorem initGame_None_iff :
  forall d : list Card,
    initGame d = None
    <-> Forall (fun x => rank x = EIGHT) (skipn 8 (skipn 8 d)).
Proof.
  intros d. unfold initGame. cbv zeta.
  set (left := skipn 8 (skipn 8 d)). split.
  - intros Hnone.
    destruct (forallb isEight left) eqn:Hall.
    + apply Forall_forall. intros x Hx. rewrite forallb_forall in Hall.
      now apply Rank_eqb_eq, Hall.
    + exfalso.
      destruct (last_non_eight_split left (not_all_eights left Hall))
        as (rest & c & eights & Hsplit & Hc & He).
      pose proof (seed_of_split rest eights c Hc He) as H.
      rewrite Hsplit in Hnone.
      destruct (pop (rest ++ c :: eights)) as [[first d']|]; [|discriminate].
      rewrite H in Hnone. discriminate.
  - intros Hall.
    destruct (pop left) as [[first d']|] eqn:Hpop; [|reflexivity].
    apply pop_Some in Hpop. rewrite Hpop in Hall.
    apply Forall_app in Hall as [Hd' Hfirst].
    rewrite seedLoop_only_eights; [reflexivity|].
    constructor; [now apply Forall_inv in Hfirst|assumption].
Qed.

Example initGame_sixteen_cards : initGame (firstn 16 Sample.shuffled) = None.
Proof. reflexivity. Qed.

Example initGame_only_eights_left :
  initGame (firstn 16 Sample.shuffled
              ++ [Sample.faceDown EIGHT HEARTS; Sample.faceDown EIGHT CLUBS])
  = None.
Proof. reflexivity. Qed.

(** ** Invariants of a game *)












(** X14. No operation ever puts a card back into the deck or takes a card
    off the discard pile: each one takes at most one card from the top of
    the deck and puts at most one card on top of the discard pile.  So an
    empty deck stays empty: the discard pile is never reshuffled into it. *)
Theorem step_piles :
  forall s s' : GameState,
    step s s' ->
    (exists drawn, deck s = deck s' ++ drawn /\ length drawn <= 1)
    /\ (exists played,
          discardPile s' = discardPile s ++ played /\ length played <= 1)
    /\ (deck s = [] -> deck s' = []).
Proof.
  intros s s' Hstep.
  assert (H : (exists drawn, deck s = deck s' ++ drawn /\ length drawn <= 1)
              /\ (exists played,
                    discardPile s' = discardPile s ++ played
                    /\ length played <= 1)).
  { assert (Hsame : forall t : GameState,
              (exists drawn, deck t = deck t ++ drawn /\ length drawn <= 1)
              /\ (exists played,
                    discardPile t = discardPile t ++ played
                    /\ length played <= 1)).
    { intros t. split; exists []; rewrite app_nil_r; simpl; auto. }
    destruct Hstep as [|cardId s' Hplay|chosen|s' Hai].
    - unfold handleDraw. destruct (_ || _); [apply Hsame|]. cbv zeta.
      destruct (pop (deck s)) as [[drawn newDeck]|] eqn:Hpop;
        [|simpl; apply (Hsame s)].
      apply pop_Some in Hpop. simpl. split.
      + exists [drawn]. split; [assumption|simpl; lia].
      + exists []. rewrite app_nil_r. simpl. auto.
    - unfold playCard in Hplay.
      destruct (_ || _); [injection Hplay as <-; apply Hsame|].
      destruct (find _ _) as [card|]; [|injection Hplay as <-; apply Hsame].
      destruct (topCard s); [|discriminate].
      destruct (negb _); [injection Hplay as <-; apply Hsame|].
      cbv zeta in Hplay. destruct (Rank_eqb _ _); injection Hplay as <-;
        try match goal with |- context [applyWinStatus ?n] =>
          destruct (applyWinStatus_fields n) as (-> & _ & _ & -> & _)
        end; simpl; (split; [exists []; rewrite app_nil_r; simpl; auto|]);
        eexists; (split; [reflexivity|simpl; lia]).
    - destruct (handleSuitSelect_effect s chosen) as (_ & _ & _ & -> & _ & _ & ->).
      apply Hsame.
    - unfold aiTurn in Hai. destruct (_ && _); [|injection Hai as <-; apply Hsame].
      cbv zeta in Hai.
      destruct (playableCardsOf _ _ _) as [l|]; [|discriminate].
      destruct (chooseCard l) as [c|].
      + destruct (Rank_eqb _ _); injection Hai as <-;
          match goal with |- context [applyWinStatus ?n] =>
            destruct (applyWinStatus_fields n) as (-> & _ & _ & -> & _)
          end; simpl; (split; [exists []; rewrite app_nil_r; simpl; auto|]);
          eexists; (split; [reflexivity|simpl; lia]).
      + destruct (pop (deck s)) as [[drawn newDeck]|] eqn:Hpop;
          injection Hai as <-; [|simpl; apply (Hsame s)].
        apply pop_Some in Hpop. simpl. split.
        * exists [drawn]. split; [assumption|simpl; lia].
        * exists []. rewrite app_nil_r. simpl. auto. }
  destruct H as [Hdeck Hpile]. repeat split; trivial.
  intros Hempty. destruct Hdeck as (drawn & Heq & _).
  rewrite Hempty in Heq. symmetry in Heq. now apply app_eq_nil in Heq.
Qed.

Lemma step_piles_witness :
  (exists drawn,
     deck Sample.holdsEight = deck (handleDraw Sample.holdsEight) ++ drawn
     /\ length drawn <= 1)
  /\ (exists played,
        discardPile (handleDraw Sample.holdsEight)
        = discardPile Sample.holdsEight ++ played
        /\ length played <= 1)
  /\ (deck Sample.holdsEight = [] -> deck (handleDraw Sample.holdsEight) = []).
Proof.
  apply (step_piles Sample.holdsEight). apply step_draw.
Defined.

(** ** The hint *)

Lemma find_by_id (card : Card) (hand : list Card) :
  In card hand ->
  NoDup (map id hand) ->
  find (fun c => String.eqb (id c) (id card)) hand = Some card.
Proof.
  induction hand as [|a hand IH]; intros Hin Hnd; [destruct Hin|].
  simpl in Hnd. inversion Hnd as [|? ? Hna Hnd']; subst. simpl.
  destruct (String.eqb_spec (id a) (id card)) as [E|E].
  - destruct Hin as [->|Hin]; [reflexivity|].
    exfalso. apply Hna. rewrite E. now apply in_map.
  - destruct Hin as [->|Hin]; [congruence|]. now apply IH.
Qed.

Lemma filter_nil_all {A : Type} (p : A -> bool) (l : list A) :
  filter p l = [] -> forall x, In x l -> p x = false.
Proof.
  intros Hnil x Hx. destruct (p x) eqn:Hp; [|reflexivity].
  assert (Hin : In x (filter p l)) by (apply filter_In; now split).
  rewrite Hnil in Hin. destruct Hin.
Qed.

(** X15. The hint is right.  On the player's turn, with a card on the
    discard pile and no repeated id in the hand, either no card of the
    hand is playable, the hint says to draw and [playCard] accepts no id;
    or the hint is about the first playable card of the hand (it names its
    rank and suit, or announces a wild 8 when it is an EIGHT) and
    [playCard] with the id of that card puts it on the discard pile. *)
Theorem hintEffect_sound :
  forall (s : GameState) (top : Card),
    status s = playing ->
    currentTurn s = player ->
    topCard s = Some top ->
    NoDup (map id (playerHand s)) ->
    ((forall c, In c (playerHand s) -> isPlayable c top (wildSuit s) = false)
     /\ hintEffect s = Some (withHint "No playable cards. Draw from the deck!" s)
     /\ forall cardId, playCard s cardId = Some s)
    \/ (exists card before after,
          playerHand s = before ++ card :: after
          /\ (forall x, In x before -> isPlayable x top (wildSuit s) = false)
          /\ isPlayable card top (wildSuit s) = true
          /\ hintEffect s =
               Some (withHint
                       (if Rank_eqb (rank card) EIGHT
                        then "You have a Wild 8! You can play it anytime."%string
                        else "You can play the " +++ rankValue (rank card)
                               +++ " of " +++ suitValue (suit card) +++ ".")
                       s)
          /\ exists s',
               playCard s (id card) = Some s'
               /\ discardPile s' = discardPile s ++ [withFaceUp true card]).
Proof.
  intros s top Hst Ht Htop Hnd.
  unfold hintEffect, playCard. rewrite Hst, Ht, Htop, playableCardsOf_top. simpl.
  destruct (filter (fun c => isPlayable c top (wildSuit s)) (playerHand s))
    as [|card rest] eqn:Hfilter.
  - left. pose proof (filter_nil_all _ _ Hfilter) as Hall.
    repeat split; trivial. intros cardId.
    destruct (find _ (playerHand s)) as [card|] eqn:Hfind; [|reflexivity].
    apply find_some in Hfind as [Hin _]. now rewrite (Hall card Hin).
  - right. apply filter_head_find in Hfilter.
    destruct (find_split _ _ _ Hfilter) as (before & after & Hhand & Hp & Hb).
    exists card, before, after. repeat split; trivial.
    rewrite find_by_id; trivial.
    2:{ rewrite Hhand. apply in_or_app. right. now left. }
    rewrite Hp. simpl.
    destruct (Rank_eqb (rank card) EIGHT); eexists; (split; [reflexivity|]);
      [reflexivity|].
    match goal with |- context [applyWinStatus ?n] =>
      destruct (applyWinStatus_fields n) as (_ & _ & _ & -> & _)
    end. reflexivity.
Qed.

Lemma hintEffect_sound_witness :
  ((forall c, In c (playerHand Sample.holdsEight) ->
              isPlayable c (Sample.card THREE DIAMONDS)
                         (wildSuit Sample.holdsEight) = false)
   /\ hintEffect Sample.holdsEight =
        Some (withHint "No playable cards. Draw from the deck!" Sample.holdsEight)
   /\ forall cardId, playCard Sample.holdsEight cardId = Some Sample.holdsEight)
  \/ (exists card before after,
        playerHand Sample.holdsEight = before ++ card :: after
        /\ (forall x, In x before ->
                      isPlayable x (Sample.card THREE DIAMONDS)
                                 (wildSuit Sample.holdsEight) = false)
        /\ isPlayable card (Sample.card THREE DIAMONDS)
                      (wildSuit Sample.holdsEight) = true
        /\ hintEffect Sample.holdsEight =
             Some (withHint
                     (if Rank_eqb (rank card) EIGHT
                      then "You have a Wild 8! You can play it anytime."%string
                      else "You can play the " +++ rankValue (rank card)
                             +++ " of " +++ suitValue (suit card) +++ ".")
                     Sample.holdsEight)
        /\ exists s',
             playCard Sample.holdsEight (id card) = Some s'
             /\ discardPile s' =
                  discardPile Sample.holdsEight ++ [withFaceUp true card]).
Proof.
  apply (hintEffect_sound Sample.holdsEight (Sample.card THREE DIAMONDS));
    try reflexivity.
  apply (nodupb_sound String.eqb String.eqb_eq). reflexivity.
Defined.

Example hint_wild_eight :
  option_map hint (hintEffect Sample.holdsEight)
  = Some (Some "You have a Wild 8! You can play it anytime."%string).
Proof. reflexivity. Qed.

Example hint_names_card :
  option_map hint (hintEffect Sample.lastCard)
  = Some (Some "You can play the 7 of hearts."%string).
Proof. reflexivity. Qed.

Example hint_draw :
  option_map hint (hintEffect Table.stuck)
  = Some (Some "No playable cards. Draw from the deck!"%string).
Proof. reflexivity. Qed.

Lemma applyWinStatus_withHint (h : string) d p a dp t st w la h0 :
  applyWinStatus (mkState d p a dp t st w la (Some h))
  = withHint h (applyWinStatus (mkState d p a dp t st w la h0)).
Proof.
  unfold applyWinStatus, checkWin. cbn [playerHand aiHand].
  destruct (length p =? 0); [reflexivity|].
  destruct (length a =? 0); reflexivity.
Qed.

(** X16. The hint is only shown: a state with another hint is treated the
    same by every operation ([handleDraw], [playCard], [handleSuitSelect],
    the AI turn), which carries the hint along unchanged. *)
Theorem hint_is_display_only :
  forall (s : GameState) (h : string),
    handleDraw (withHint h s) = withHint h (handleDraw s)
    /\ (forall cardId,
          playCard (withHint h s) cardId = option_map (withHint h) (playCard s cardId))
    /\ (forall chosen,
          handleSuitSelect (withHint h s) chosen
          = withHint h (handleSuitSelect s chosen))
    /\ aiTurn (withHint h s) = option_map (withHint h) (aiTurn s).
Proof.
  intros s h. split; [|split; [|split]].
  - unfold handleDraw. simpl. destruct (_ || _); [reflexivity|].
    destruct (pop (deck s)) as [[? ?]|]; reflexivity.
  - intros cardId. unfold playCard, topCard. simpl.
    destruct (_ || _); [reflexivity|].
    destruct (find _ _) as [card|]; [|reflexivity].
    destruct (nth_error _ _) as [top|]; [|reflexivity].
    destruct (negb _); [reflexivity|].
    destruct (Rank_eqb _ _); [reflexivity|].
    simpl. f_equal. apply applyWinStatus_withHint.
  - intros chosen. unfold handleSuitSelect. simpl.
    apply applyWinStatus_withHint.
  - unfold aiTurn, topCard. simpl. destruct (_ && _); [|reflexivity].
    destruct (playableCardsOf _ _ _) as [l|]; [|reflexivity].
    destruct (chooseCard l) as [c|].
    + destruct (Rank_eqb _ _); simpl; f_equal; apply applyWinStatus_withHint.
    + destruct (pop (deck s)) as [[? ?]|]; reflexivity.
Qed.

(** X17. The hint effect changes nothing but the hint, and running it
    again on its result changes nothing more.  Outside the status playing
    it leaves even the hint; on the AI's turn the hint is that the AI is
    thinking. *)
Theorem hintEffect_only_hint :
  forall s s' : GameState,
    hintEffect s = Some s' ->
    deck s' = deck s
    /\ playerHand s' = playerHand s
    /\ aiHand s' = aiHand s
    /\ discardPile s' = discardPile s
    /\ currentTurn s' = currentTurn s
    /\ status s' = status s
    /\ wildSuit s' = wildSuit s
    /\ lastAction s' = lastAction s
    /\ hintEffect s' = Some s'
    /\ (status s <> playing -> s' = s)
    /\ (status s = playing -> currentTurn s = ai ->
        hint s' = Some "AI is thinking..."%string).
Proof.
  intros s s'. unfold hintEffect.
  destruct (GameStatus_eqb (status s) playing) eqn:Hst.
  2:{ intros [= <-]. rewrite Hst. repeat split; trivial.
      intros H. apply GameStatus_eqb_eq in H. congruence. }
  apply GameStatus_eqb_eq in Hst.
  destruct (Turn_eqb (currentTurn s) player) eqn:Ht.
  2:{ intros [= <-]. simpl. rewrite Hst, Ht. simpl.
      repeat split; trivial. congruence. }
  apply Turn_eqb_eq in Ht.
  destruct (playableCardsOf _ _ _) as [l|] eqn:Hl; [|discriminate].
  destruct l as [|card rest]; intros [= <-]; unfold topCard in *; simpl;
    rewrite Hst, Ht; simpl; rewrite Hl; repeat split; trivial; congruence.
Qed.

Lemma hintEffect_only_hint_witness :
  exists s',
    hintEffect Sample.chosen = Some s'
    /\ deck s' = deck Sample.chosen
    /\ playerHand s' = playerHand Sample.chosen
    /\ aiHand s' = aiHand Sample.chosen
    /\ discardPile s' = discardPile Sample.chosen
    /\ currentTurn s' = currentTurn Sample.chosen
    /\ status s' = status Sample.chosen
    /\ wildSuit s' = wildSuit Sample.chosen
    /\ lastAction s' = lastAction Sample.chosen
    /\ hintEffect s' = Some s'
    /\ (status Sample.chosen <> playing -> s' = Sample.chosen)
    /\ (status Sample.chosen = playing -> currentTurn Sample.chosen = ai ->
        hint s' = Some "AI is thinking..."%string).
Proof.
  eexists. split; [reflexivity|].
  apply (hintEffect_only_hint Sample.chosen). reflexivity.
Defined.

(** ** How the operations follow one another *)

(** X18. A second suit choice overrides the first: choosing [a] and then
    [b] gives the state that choosing [b] alone gives. *)
Theorem handleSuitSelect_last_wins :
  forall (s : GameState) (a b : Suit),
    handleSuitSelect (handleSuitSelect s a) b = handleSuitSelect s b.
Proof.
  intros s a b. unfold handleSuitSelect. cbv zeta.
  match goal with |- context [applyWinStatus (mkState _ _ _ _ _ _ (Some a) ?la ?h)] =>
    destruct (applyWinStatus_fields (mkState (deck s) (playerHand s) (aiHand s)
                (discardPile s) ai playing (Some a) la h))
      as (-> & -> & -> & -> & _)
  end.
  simpl. unfold applyWinStatus, checkWin. simpl.
  destruct (length (playerHand s) =? 0); [reflexivity|].
  destruct (length (aiHand s) =? 0); reflexivity.
Qed.

Lemma handleDraw_guard (s : GameState) :
  status s <> playing \/ currentTurn s <> player -> handleDraw s = s.
Proof.
  intros H. unfold handleDraw.
  destruct (GameStatus_eqb (status s) playing) eqn:E1; [|reflexivity].
  destruct (Turn_eqb (currentTurn s) player) eqn:E2; [|reflexivity].
  apply GameStatus_eqb_eq in E1. apply Turn_eqb_eq in E2. destruct H; congruence.
Qed.

Lemma playCard_guard (s : GameState) (cardId : string) :
  status s <> playing \/ currentTurn s <> player -> playCard s cardId = Some s.
Proof.
  intros H. unfold playCard.
  destruct (GameStatus_eqb (status s) playing) eqn:E1; [|reflexivity].
  destruct (Turn_eqb (currentTurn s) player) eqn:E2; [|reflexivity].
  apply GameStatus_eqb_eq in E1. apply Turn_eqb_eq in E2. destruct H; congruence.
Qed.

Lemma handleDraw_after (s : GameState) :
  status (handleDraw s) <> playing \/ currentTurn (handleDraw s) <> player.
Proof.
  unfold handleDraw.
  destruct (GameStatus_eqb (status s) playing) eqn:E1; simpl.
  2:{ left. intros H. apply GameStatus_eqb_eq in H. congruence. }
  destruct (Turn_eqb (currentTurn s) player) eqn:E2; simpl.
  2:{ right. intros H. apply Turn_eqb_eq in H. congruence. }
  right. destruct (pop (deck s)) as [[? ?]|]; discriminate.
Qed.

(** X19. One move per turn.  After [handleDraw] a further draw or play by
    the player changes nothing; after a play that changed the state a
    further draw or play changes nothing (the turn has passed or the suit
    is awaited); and after the AI turn a further AI turn changes
    nothing. *)
Theorem one_move_per_turn :
  forall s : GameState,
    handleDraw (handleDraw s) = handleDraw s
    /\ (forall cardId, playCard (handleDraw s) cardId = Some (handleDraw s))
    /\ (forall cardId s',
          playCard s cardId = Some s' -> s' <> s ->
          handleDraw s' = s' /\ forall cardId', playCard s' cardId' = Some s')
    /\ (forall s', aiTurn s = Some s' -> aiTurn s' = Some s').
Proof.
  intros s. split; [|split; [|split]].
  - apply handleDraw_guard, handleDraw_after.
  - intros cardId. apply playCard_guard, handleDraw_after.
  - intros cardId s' Hplay Hne.
    assert (Hafter : status s' <> playing \/ currentTurn s' <> player).
    { unfold playCard in Hplay.
      destruct (_ || _); [injection Hplay as <-; congruence|].
      destruct (find _ _) as [card|]; [|injection Hplay as <-; congruence].
      destruct (topCard s); [|discriminate].
      destruct (negb _); [injection Hplay as <-; congruence|].
      cbv zeta in Hplay. destruct (Rank_eqb _ _); injection Hplay as <-.
      - left. discriminate.
      - right.
        match goal with |- context [applyWinStatus ?n] =>
          destruct (applyWinStatus_fields n) as (_ & _ & _ & _ & -> & _)
        end. discriminate. }
    split; [now apply handleDraw_guard|].
    intros cardId'. now apply playCard_guard.
  - intros s' Hai.
    destruct (GameStatus_eqb (status s) playing && Turn_eqb (currentTurn s) ai)
      eqn:Hguard.
    + apply status_playing_dec in Hguard as [Hst Ht].
      pose proof (aiTurn_gives_turn s s' Hst Ht Hai) as Hturn.
      unfold aiTurn. rewrite Hturn, andb_false_r. reflexivity.
    + unfold aiTurn in Hai. rewrite Hguard in Hai. injection Hai as <-.
      unfold aiTurn. now rewrite Hguard.
Qed.

Lemma one_move_per_turn_witness :
  handleDraw (handleDraw Sample.holdsEight) = handleDraw Sample.holdsEight
  /\ (forall cardId,
        playCard (handleDraw Sample.holdsEight) cardId
        = Some (handleDraw Sample.holdsEight))
  /\ (forall cardId s',
        playCard Sample.holdsEight cardId = Some s' -> s' <> Sample.holdsEight ->
        handleDraw s' = s' /\ forall cardId', playCard s' cardId' = Some s')
  /\ (forall s', aiTurn Sample.holdsEight = Some s' -> aiTurn s' = Some s').
Proof. apply (one_move_per_turn Sample.holdsEight). Defined.

(** ** The top card in a game *)



